(** * Income-statement summariser of the Fava MCP server (src/main.py)

    A shallow embedding of the helpers of [main.py]: the fetcher
    [_http_get_income_statement], the numeric coercion [_num], the
    summariser [_summarize_income_statement] with its nested walker
    [collect_categories], and the route [explain_income_statement].

    Python values decoded from JSON are the inductive [json]; a Python
    [float] is an IEEE binary64 number, i.e. Rocq's primitive [float];
    a Python [dict] is an association list in insertion order, read with
    [dict_get] (the method [dict.get], whose default is [None]); raising
    code returns an [outcome]. *)

From Stdlib Require Import List String Ascii ZArith Bool Lia.
From Stdlib Require Import Floats DecimalString DecimalPos DecimalZ.
From Stdlib Require Import Sorted Permutation.
Import ListNotations.

Set Warnings "-register-all".
Local Open Scope string_scope.
Local Open Scope list_scope.

(** ** Python values *)

Inductive json : Type :=
| JNull                                   (* None *)
| JBool (b : bool)
| JInt (z : Z)                            (* int, unbounded *)
| JFloat (f : float)                      (* float, also NaN and Infinity *)
| JStr (s : string)
| JArr (l : list json)                    (* list *)
| JObj (d : list (string * json)).        (* dict *)

Definition dict := list (string * json).

(** [d.get(k)]: the value under [k], [None] when the key is missing. *)
Fixpoint dict_get (k : string) (d : dict) : json :=
  match d with
  | [] => JNull
  | (k', v) :: d' => if String.eqb k k' then v else dict_get k d'
  end.

(** [k in d]. *)
Fixpoint dict_has (k : string) (d : dict) : bool :=
  match d with
  | [] => false
  | (k', _) :: d' => String.eqb k k' || dict_has k d'
  end.

(** Truth value of a Python object, as [or], [if] and [bool()] test it. *)
Definition truthy (v : json) : bool :=
  match v with
  | JNull => false
  | JBool b => b
  | JInt z => negb (Z.eqb z 0)
  | JFloat f => negb (PrimFloat.eqb f 0%float)
  | JStr s => negb (String.eqb s "")
  | JArr l => match l with [] => false | _ => true end
  | JObj d => match d with [] => false | _ => true end
  end.

(** [a or b]: [a] when it is true, [b] otherwise. *)
Definition py_or (a b : json) : json := if truthy a then a else b.

Definition is_None (v : json) : bool :=
  match v with JNull => true | _ => false end.

(** ** Exceptions and outcomes *)

Inductive exn : Type :=
| TypeError
| ValueError
| OverflowError
| AttributeError
| RecursionError                          (* the limit on nested calls *)
| RequestException (cause : string)       (* str(e) of a requests failure *)
| HTTPException (status_code : Z) (detail : string)
| OtherException (text : string).

Inductive outcome (A : Type) : Type :=
| Returns (a : A)
| Raises (e : exn).
Arguments Returns {A} a.
Arguments Raises {A} e.

Definition bind {A B} (m : outcome A) (k : A -> outcome B) : outcome B :=
  match m with
  | Returns a => k a
  | Raises e => Raises e
  end.

Notation "x <- m ;; k" := (bind m (fun x => k))
  (at level 61, m at next level, right associativity).

(** ** The builtin [float()] *)

(** [float(n)] for an [int]: the nearest binary64 number, and
    [OverflowError] when [n] is too large for one. *)
Definition float_of_int (z : Z) : outcome float :=
  let f := SF2Prim (binary_normalize prec emax z 0 false) in
  if PrimFloat.eqb (PrimFloat.abs f) infinity then Raises OverflowError
  else Returns f.

(** Nesting depth of a value; [collect_categories] below recurses at most
    this deep. *)
Fixpoint json_depth (v : json) : nat :=
  match v with
  | JArr l => S (fold_right (fun c acc => Nat.max (json_depth c) acc) 0%nat l)
  | JObj d =>
      S (fold_right (fun kv acc => Nat.max (json_depth (snd kv)) acc) 0%nat d)
  | _ => 0%nat
  end.

(** ** The summary *)

(** An element of [cats]: [{"name": str(name), "value": val}]. *)
Record CategoryEntry : Type := { name : string; value : float }.

(** [summary["totals"]]. *)
Record Totals : Type :=
  { income : option float; expenses : option float; net_profit : option float }.

Record Summary : Type :=
  { notes : list string;
    totals : Totals;
    top_income : list CategoryEntry;
    top_expenses : list CategoryEntry }.

Definition reading_tips : list string :=
  [ "Income is money in; expenses are money out (often negative).";
    "Net Profit ≈ Income + Expenses (if expenses are negative, they reduce profit).";
    "Numbers are best-effort parsed; Fava’s API may change between versions." ].

(** [sorted(l, key=key, reverse=True)]: a stable descending sort, an element
    moving behind another only when its key is [<] the other's. *)
Fixpoint insert_reverse {A} (key : A -> float) (x : A) (l : list A) : list A :=
  match l with
  | [] => [x]
  | y :: l' =>
      if PrimFloat.ltb (key x) (key y) then y :: insert_reverse key x l'
      else x :: l
  end.

Definition sorted_reverse {A} (key : A -> float) (l : list A) : list A :=
  fold_right (insert_reverse key) [] l.

(** ** The upstream call *)

(** What [requests.get] hands back: the status and what [resp.json()] does. *)
Record Response : Type :=
  { resp_status_code : Z; resp_json : outcome json }.

(** [str(n)] for an [int]. *)
Definition str_of_int (z : Z) : string :=
  NilZero.string_of_int (Z.to_int z).

(** A value of the route's result dict. *)
Inductive result_value : Type :=
| VStr (s : string)
| VSummary (s : Summary)
| VJson (j : json).

Definition result_dict := list (string * result_value).

Fixpoint result_get (k : string) (r : result_dict) : option result_value :=
  match r with
  | [] => None
  | (k', v) :: r' => if String.eqb k k' then Some v else result_get k r'
  end.

(** [if v: params[k] = v] for an optional query string. *)
Definition add_param (k : string) (v : option string)
    (params : list (string * string)) : list (string * string) :=
  match v with
  | Some s => if String.eqb s "" then params else params ++ [(k, s)]
  | None => params
  end.

(** Lines 156-160: the query of the upstream call. *)
Definition query_params (time interval conversion filter : option string)
    : list (string * string) :=
  add_param "filter" filter
    (add_param "conversion" conversion
       (add_param "interval" interval (add_param "time" time []))).

Section Environment.

(** The reading of a string as a float literal by the builtin [float()]
    ([None] stands for its [ValueError]), and [str()] of a value that is
    not a string, are the interpreter's and not this repository's. *)
Variable float_of_str : string -> option float.
Variable str_of_value : json -> string.

(** The number of calls the interpreter still lets the body of
    [_summarize_income_statement] nest (its recursion limit less the frames
    in use); a call beyond it raises [RecursionError]. *)
Variable recursion_limit : nat.

(** The configured endpoint and the network behind [requests.get]. *)
Variable FAVA_INCOME_API : string.
Variable requests_get :
  string -> list (string * string) -> Z -> outcome Response.

Definition py_float (x : json) : outcome float :=
  match x with
  | JNull => Raises TypeError
  | JBool b => Returns (if b then 1%float else 0%float)
  | JInt z => float_of_int z
  | JFloat f => Returns f
  | JStr s =>
      match float_of_str s with
      | Some f => Returns f
      | None => Raises ValueError
      end
  | JArr _ => Raises TypeError
  | JObj _ => Raises TypeError
  end.

(** [str(x)]. *)
Definition py_str (x : json) : string :=
  match x with
  | JStr s => s
  | _ => str_of_value x
  end.

(** [_num]: [float(x)] under [try], every exception turned into [None]. *)
Definition _num (x : json) : option float :=
  match py_float x with
  | Returns f => Some f
  | Raises _ => None
  end.

(** [_http_get_income_statement]: the [try] body, then the handler of
    [requests.exceptions.RequestException]; any other exception, the
    [HTTPException] of the body among them, passes through. *)
Definition _http_get_income_statement (params : list (string * string))
    : outcome json :=
  let body :=
    resp <- requests_get FAVA_INCOME_API params 15 ;;
    if negb (Z.eqb (resp_status_code resp) 200) then
      Raises (HTTPException (resp_status_code resp)
                ("Fava returned " ++ str_of_int (resp_status_code resp)))
    else resp_json resp in
  match body with
  | Raises (RequestException cause) =>
      Raises (HTTPException 502 ("Failed to reach Fava: " ++ cause))
  | r => r
  end.

(** Lines 71-95: the three totals. *)
Definition derive_totals (data : dict) : Totals :=
  let '(income_total, expenses_total, net_total) :=
    match dict_get "totals" data with
    | JObj t =>
        (_num (dict_get "income" t),
         _num (dict_get "expenses" t),
         _num (py_or (py_or (dict_get "net" t) (dict_get "profit" t))
                     (dict_get "net_profit" t)))
    | _ => (None, None, None)
    end in
  let income_total :=
    match income_total with
    | None => _num (dict_get "income" data)
    | Some _ => income_total
    end in
  let expenses_total :=
    match expenses_total with
    | None => _num (dict_get "expenses" data)
    | Some _ => expenses_total
    end in
  let net_total :=
    match net_total with
    | None =>
        _num (py_or (py_or (dict_get "net_profit" data) (dict_get "net" data))
                    (dict_get "profit" data))
    | Some _ => net_total
    end in
  let net_total :=
    match net_total, income_total, expenses_total with
    | None, Some i, Some e => Some (i + e)%float
    | _, _, _ => net_total
    end in
  {| income := income_total; expenses := expenses_total;
     net_profit := net_total |}.

(** The name and the value [collect_categories] reads off a dict node, and
    the child collection it goes on with. *)
Definition node_name (node : dict) : json :=
  py_or (py_or (py_or (dict_get "name" node) (dict_get "label" node))
               (dict_get "account" node))
        (dict_get "title" node).

Definition node_val (node : dict) : option float :=
  _num (py_or (py_or (py_or (dict_get "balance" node) (dict_get "amount" node))
                     (dict_get "value" node))
              (dict_get "total" node)).

Definition node_ch (node : dict) : json :=
  py_or (py_or (dict_get "children" node) (dict_get "accounts" node))
        (dict_get "items" node).

(** [cats.append(...)] under its guard. *)
Definition record_entry (node : dict) (cats : list CategoryEntry)
    : list CategoryEntry :=
  match is_None (node_name node), node_val node with
  | false, Some val =>
      cats ++ [ {| name := py_str (node_name node); value := val |} ]
  | _, _ => cats
  end.

(** What [collect_categories] appends to [cats] when the interpreter lets
    it run to its end: [fuel] bounds the depth of the recursion, and
    [collect_categories] below gives it more than the depth of the value.
    [collect_categories_within], further down, is the same walk under the
    interpreter's limit on nested calls. *)
Fixpoint collect_categories_fuel (fuel : nat) (node : json)
    (cats : list CategoryEntry) : list CategoryEntry :=
  match fuel with
  | O => cats
  | S fuel' =>
      match node with
      | JObj d =>
          let cats := record_entry d cats in
          match node_ch d with
          | JArr l =>
              fold_left (fun acc c => collect_categories_fuel fuel' c acc) l cats
          | JObj ch => collect_categories_fuel fuel' (JObj ch) cats
          | _ => cats
          end
      | JArr l =>
          fold_left (fun acc c => collect_categories_fuel fuel' c acc) l cats
      | _ => cats
      end
  end.

Definition collect_categories (node : json) (cats : list CategoryEntry)
    : list CategoryEntry :=
  collect_categories_fuel (S (json_depth node)) node cats.

(** Lines 119-121: the walk from each of the typical keys. *)
Definition collect_all (data : dict) : list CategoryEntry :=
  fold_left
    (fun cats key =>
       if dict_has key data then collect_categories (dict_get key data) cats
       else cats)
    ["children"; "accounts"; "items"; "tree"; "data"] [].

(** Lines 124-128. *)
Definition rank_income (cats : list CategoryEntry) : list CategoryEntry :=
  match cats with
  | [] => []
  | _ =>
      firstn 5 (sorted_reverse value
                  (filter (fun c => PrimFloat.ltb 0 (value c)) cats))
  end.

Definition rank_expenses (cats : list CategoryEntry) : list CategoryEntry :=
  match cats with
  | [] => []
  | _ =>
      firstn 5 (sorted_reverse (fun x => PrimFloat.abs (value x))
                  (filter (fun c => PrimFloat.ltb (value c) 0) cats))
  end.

(** The summary of a dict when no call exceeds the interpreter's limit. *)
Definition summarize_dict (data : dict) : Summary :=
  let cats := collect_all data in
  {| notes := reading_tips;
     totals := derive_totals data;
     top_income := rank_income cats;
     top_expenses := rank_expenses cats |}.

(** [collect_categories] as the interpreter runs it, with [frames] nested
    calls still allowed: the call itself takes one, the call of [_num] at a
    dict node one below it, and each call on a child one below it; a call
    for which none is left raises [RecursionError], which nothing catches. *)
Fixpoint collect_categories_within (frames : nat) (node : json)
    (cats : list CategoryEntry) : outcome (list CategoryEntry) :=
  match frames with
  | O => Raises RecursionError
  | S below =>
      match node with
      | JObj d =>
          match below with
          | O => Raises RecursionError
          | S _ =>
              let cats := record_entry d cats in
              match node_ch d with
              | JArr l =>
                  fold_left
                    (fun acc c =>
                       cats' <- acc ;; collect_categories_within below c cats')
                    l (Returns cats)
              | JObj ch => collect_categories_within below (JObj ch) cats
              | _ => Returns cats
              end
          end
      | JArr l =>
          fold_left
            (fun acc c =>
               cats' <- acc ;; collect_categories_within below c cats')
            l (Returns cats)
      | _ => Returns cats
      end
  end.

(** Lines 119-121 under the limit. *)
Definition collect_all_within (data : dict) : outcome (list CategoryEntry) :=
  fold_left
    (fun acc key =>
       cats <- acc ;;
       if dict_has key data
       then collect_categories_within recursion_limit (dict_get key data) cats
       else Returns cats)
    ["children"; "accounts"; "items"; "tree"; "data"] (Returns []).

(** [_summarize_income_statement]: [data.get] exists on a dict only; the
    totals call [_num], for which a frame must be left; then the walk, and
    the ranking of what it collected. *)
Definition _summarize_income_statement (data : json) : outcome Summary :=
  match data with
  | JObj d =>
      match recursion_limit with
      | O => Raises RecursionError
      | S _ =>
          cats <- collect_all_within d ;;
          Returns {| notes := reading_tips;
                     totals := derive_totals d;
                     top_income := rank_income cats;
                     top_expenses := rank_expenses cats |}
      end
  | _ => Raises AttributeError
  end.

(** The route function. *)
Definition explain_income_statement
    (time interval conversion filter : option string) (return_raw : bool)
    : outcome result_dict :=
  let params := query_params time interval conversion filter in
  data <- _http_get_income_statement params ;;
  summary <- _summarize_income_statement data ;;
  let result := [("source", VStr FAVA_INCOME_API); ("summary", VSummary summary)] in
  Returns (if return_raw then result ++ [("raw", VJson data)] else result).

(** The route with [return_raw] left to its default, [Query(True)]. *)
Definition income_statement_route
    (time interval conversion filter : option string)
    (return_raw : option bool) : outcome result_dict :=
  explain_income_statement time interval conversion filter
    (match return_raw with Some b => b | None => true end).

End Environment.

(** A float that is a number (not NaN): it equals itself. *)
Definition is_number (x : float) : bool := PrimFloat.eqb x x.

(** The order [sorted(..., reverse=True)] leaves its keys in. *)
Definition descending {A} (key : A -> float) (a b : A) : Prop :=
  PrimFloat.leb (key b) (key a) = true.

(** ** Reading the [or] chains *)

(** [k] is the first of [keys] whose value in [node] is true. *)
Definition first_truthy_key (node : dict) (keys : list string) (k : string)
    : Prop :=
  exists pre post,
    keys = pre ++ k :: post /\
    Forall (fun k' => truthy (dict_get k' node) = false) pre /\
    truthy (dict_get k node) = true.

Definition name_keys : list string := ["name"; "label"; "account"; "title"].
Definition value_keys : list string := ["balance"; "amount"; "value"; "total"].
Definition child_keys : list string := ["children"; "accounts"; "items"].
Definition totals_net_keys : list string := ["net"; "profit"; "net_profit"].
Definition net_keys : list string := ["net_profit"; "net"; "profit"].

(** [k] is the key an [or] chain over [keys] takes its value from: the first
    whose value is true, and the last of them when none is. *)
Definition picked_key (node : dict) (keys : list string) (k : string) : Prop :=
  first_truthy_key node keys k \/
  (Forall (fun k' => truthy (dict_get k' node) = false) keys /\
   k = last keys "").

(** A chain of [n] dicts, each the children of the one before, down to a
    leaf with a name. *)
Fixpoint deep_children (n : nat) : json :=
  match n with
  | O => JObj [("name", JStr "leaf")]
  | S n' => JObj [("children", deep_children n')]
  end.

(** ** A closed environment for examples

    The examples at the end of the file run the code on inputs in which no
    string is a float literal and every name is a string, so that any
    reading of the two builtins serves there. *)
Definition no_literal : string -> option float := fun _ => None.
Definition opaque_str : json -> string := fun _ => "<value>".
Definition example_limit : nat := 900.
Definition example_api : string :=
  "http://127.0.0.1:5000/example-beancount-file/api/income_statement".

(** An upstream that answers every call with the given status and body. *)
Definition upstream_answer (status : Z) (body : outcome json)
    : string -> list (string * string) -> Z -> outcome Response :=
  fun _ _ _ => Returns {| resp_status_code := status; resp_json := body |}.

(** An upstream that cannot be reached. *)
Definition upstream_down (cause : string)
    : string -> list (string * string) -> Z -> outcome Response :=
  fun _ _ _ => Raises (RequestException cause).

(** ** Configuration (lines 13-20) *)

(** [s.rstrip('/')]: [s] without the slashes it ends in. *)
Fixpoint rstrip_slash (s : string) : string :=
  match s with
  | EmptyString => EmptyString
  | String c s' =>
      match rstrip_slash s' with
      | EmptyString =>
          if Ascii.eqb c "/" then EmptyString else String c EmptyString
      | r => String c r
      end
  end.

(** [os.getenv(name, default)] in the process environment [env]. *)
Definition getenv (env : string -> option string) (name default : string)
    : string :=
  match env name with
  | Some v => v
  | None => default
  end.

Definition FAVA_BASE_URL (env : string -> option string) : string :=
  getenv env "FAVA_BASE_URL" "http://127.0.0.1:5000".

Definition FAVA_LEDGER_SLUG (env : string -> option string) : string :=
  getenv env "FAVA_LEDGER_SLUG" "example-beancount-file".

(** The f-string of line 20, and the endpoint it gives in [env]. *)
Definition income_api (base slug : string) : string :=
  rstrip_slash base ++ "/" ++ slug ++ "/api/income_statement".

Definition configured_income_api (env : string -> option string) : string :=
  income_api (FAVA_BASE_URL env) (FAVA_LEDGER_SLUG env).

(** A run of [n] slashes. *)
Fixpoint slashes (n : nat) : string :=
  match n with
  | O => EmptyString
  | S n' => String "/" (slashes n')
  end.

(** [s] ends in a slash. *)
Fixpoint ends_in_slash (s : string) : bool :=
  match s with
  | EmptyString => false
  | String c EmptyString => Ascii.eqb c "/"
  | String _ s' => ends_in_slash s'
  end.

(** An environment that sets no variable. *)
Definition empty_env : string -> option string := fun _ => None.

(** ** The keys the summariser reads *)

(** At the top level of the statement, and at a node of the tree. *)
Definition top_keys : list string :=
  ["totals"; "income"; "expenses"; "net_profit"; "net"; "profit";
   "children"; "accounts"; "items"; "tree"; "data"].

Definition walk_keys : list string :=
  ["children"; "accounts"; "items"; "tree"; "data"].

Definition node_keys : list string :=
  ["name"; "label"; "account"; "title";
   "balance"; "amount"; "value"; "total";
   "children"; "accounts"; "items"].

(** * Properties *)

(** ** The walker does not depend on its fuel *)

Lemma fold_left_ext_in {A B} (f g : A -> B -> A) (l : list B) :
  (forall b, In b l -> forall a, f a b = g a b) ->
  forall a, fold_left f l a = fold_left g l a.
Proof.
  induction l as [|b l IH]; intros H a; simpl; [reflexivity|].
  rewrite (H b (or_introl eq_refl)). apply IH.
  intros b' Hb'. apply H. right. exact Hb'.
Qed.

Lemma depth_elem_le (l : list json) (c : json) :
  In c l ->
  (json_depth c <= fold_right (fun c acc => Nat.max (json_depth c) acc) 0 l)%nat.
Proof.
  induction l as [|x l IH]; simpl; [tauto|].
  intros [->|H]; [lia|]. specialize (IH H). lia.
Qed.

Lemma depth_dict_get_le (k : string) (d : dict) :
  (json_depth (dict_get k d)
   <= fold_right (fun kv acc => Nat.max (json_depth (snd kv)) acc) 0 d)%nat.
Proof.
  induction d as [|[k' v] d IH]; simpl; [lia|].
  destruct (String.eqb k k'); simpl; lia.
Qed.

Lemma depth_py_or (a b : json) (n : nat) :
  (json_depth a <= n)%nat -> (json_depth b <= n)%nat ->
  (json_depth (py_or a b) <= n)%nat.
Proof. intros Ha Hb. unfold py_or. destruct (truthy a); assumption. Qed.

Section WalkerFacts.

Variable float_of_str : string -> option float.
Variable str_of_value : json -> string.

Local Abbreviation collect_fuel :=
  (collect_categories_fuel float_of_str str_of_value).
Local Abbreviation collect := (collect_categories float_of_str str_of_value).
Local Abbreviation record := (record_entry float_of_str str_of_value).

Lemma depth_node_ch (d : dict) :
  (json_depth (node_ch d) < json_depth (JObj d))%nat.
Proof.
  unfold node_ch. simpl json_depth at 2. apply Nat.lt_succ_r.
  repeat apply depth_py_or; apply depth_dict_get_le.
Qed.

Lemma collect_fuel_irrelevant (n : nat) :
  forall m node cats,
    (json_depth node < n)%nat -> (json_depth node < m)%nat ->
    collect_fuel n node cats = collect_fuel m node cats.
Proof.
  induction n as [|n IH]; intros m node cats Hn Hm; [lia|].
  destruct m as [|m]; [lia|].
  destruct node as [| | | | |l|d]; try reflexivity.
  - simpl. apply fold_left_ext_in. intros c Hc a.
    pose proof (depth_elem_le l c Hc). simpl in Hn, Hm.
    apply IH; lia.
  - simpl. pose proof (depth_node_ch d) as Hd.
    destruct (node_ch d) as [| | | | |l|ch] eqn:E; try reflexivity.
    + apply fold_left_ext_in. intros c Hc a.
      pose proof (depth_elem_le l c Hc). simpl in Hd. simpl in Hn, Hm.
      apply IH; simpl; lia.
    + apply IH; lia.
Qed.

(** The body of [collect_categories] at a dict, as the source has it. *)
Lemma collect_categories_dict (d : dict) (cats : list CategoryEntry) :
  collect (JObj d) cats =
  match node_ch d with
  | JArr l => fold_left (fun acc c => collect c acc) l (record d cats)
  | JObj ch => collect (JObj ch) (record d cats)
  | _ => record d cats
  end.
Proof.
  unfold collect_categories at 1.
  change (collect_fuel (S (json_depth (JObj d))) (JObj d) cats) with
    (match node_ch d with
     | JArr l =>
         fold_left (fun acc c => collect_fuel (json_depth (JObj d)) c acc) l
           (record d cats)
     | JObj ch => collect_fuel (json_depth (JObj d)) (JObj ch) (record d cats)
     | _ => record d cats
     end).
  pose proof (depth_node_ch d) as Hd.
  destruct (node_ch d) as [| | | | |l|ch] eqn:E; try reflexivity.
  - apply fold_left_ext_in. intros c Hc a.
    pose proof (depth_elem_le l c Hc). simpl in Hd.
    apply collect_fuel_irrelevant; simpl; lia.
  - apply collect_fuel_irrelevant; lia.
Qed.

(** The body of [collect_categories] at a list and at any other value. *)
Lemma collect_categories_list (l : list json) (cats : list CategoryEntry) :
  collect (JArr l) cats = fold_left (fun acc c => collect c acc) l cats.
Proof.
  unfold collect_categories at 1.
  change (collect_fuel (S (json_depth (JArr l))) (JArr l) cats) with
    (fold_left (fun acc c => collect_fuel (json_depth (JArr l)) c acc) l cats).
  apply fold_left_ext_in. intros c Hc a.
  pose proof (depth_elem_le l c Hc).
  apply collect_fuel_irrelevant; simpl; lia.
Qed.

Lemma collect_categories_scalar (node : json) (cats : list CategoryEntry) :
  match node with JArr _ | JObj _ => False | _ => True end ->
  collect node cats = cats.
Proof. destruct node; simpl; intros H; try reflexivity; destruct H. Qed.

End WalkerFacts.

(** ** Facts about [or] chains and appending *)

Lemma dict_get_absent (k : string) (d : dict) :
  dict_has k d = false -> dict_get k d = JNull.
Proof.
  induction d as [|[k' v] d IH]; simpl; [reflexivity|].
  destruct (String.eqb k k'); simpl; [discriminate|exact IH].
Qed.

Lemma py_or_truthy (a b : json) : truthy a = true -> py_or a b = a.
Proof. unfold py_or. intros ->. reflexivity. Qed.

Lemma py_or_falsy (a b : json) : truthy a = false -> py_or a b = b.
Proof. unfold py_or. intros ->. reflexivity. Qed.

Section SummariserFacts.

Variable float_of_str : string -> option float.
Variable str_of_value : json -> string.

Local Abbreviation num := (_num float_of_str).
Local Abbreviation collect_fuel :=
  (collect_categories_fuel float_of_str str_of_value).
Local Abbreviation collect := (collect_categories float_of_str str_of_value).
Local Abbreviation record := (record_entry float_of_str str_of_value).


Lemma record_entry_app (d : dict) (cats : list CategoryEntry) :
  record d cats = cats ++ record d [].
Proof.
  unfold record_entry.
  destruct (is_None (node_name d)); [now rewrite app_nil_r|].
  destruct (node_val float_of_str d); [reflexivity|now rewrite app_nil_r].
Qed.

Lemma fold_collect_app (f : json -> list CategoryEntry -> list CategoryEntry)
    (l : list json) :
  (forall c, In c l -> forall cats, f c cats = cats ++ f c []) ->
  forall cats,
    fold_left (fun acc c => f c acc) l cats =
    cats ++ fold_left (fun acc c => f c acc) l [].
Proof.
  induction l as [|c l IH]; intros H cats; simpl; [now rewrite app_nil_r|].
  assert (Hl : forall c', In c' l -> forall cats, f c' cats = cats ++ f c' [])
    by (intros c' Hc'; apply H; now right).
  rewrite (IH Hl (f c cats)), (IH Hl (f c [])).
  rewrite (H c (or_introl eq_refl) cats). now rewrite app_assoc.
Qed.

(** The walker only appends to [cats]. *)
Lemma collect_fuel_app (n : nat) :
  forall node cats, collect_fuel n node cats = cats ++ collect_fuel n node [].
Proof.
  induction n as [|n IH]; intros node cats; cbn [collect_categories_fuel];
    [now rewrite app_nil_r|].
  destruct node as [| | | | |l|d]; try now rewrite app_nil_r.
  - apply (fold_collect_app (collect_fuel n)). intros c _. apply IH.
  - rewrite (record_entry_app d cats).
    destruct (node_ch d) as [| | | | |l|ch]; try reflexivity.
    + rewrite (fold_collect_app (collect_fuel n) l (fun c _ => IH c)
                 (cats ++ record d [])).
      rewrite (fold_collect_app (collect_fuel n) l (fun c _ => IH c)
                 (record d [])).
      now rewrite app_assoc.
    + rewrite (IH (JObj ch) (cats ++ record d [])).
      rewrite (IH (JObj ch) (record d [])). now rewrite app_assoc.
Qed.

Lemma collect_categories_app (node : json) (cats : list CategoryEntry) :
  collect node cats = cats ++ collect node [].
Proof. apply collect_fuel_app. Qed.

End SummariserFacts.

(** ** Numeric coercion *)

Section NumericCoercion.

Variable float_of_str : string -> option float.
Variable str_of_value : json -> string.

Local Abbreviation num := (_num float_of_str).
Local Abbreviation to_float := (py_float float_of_str).
Local Abbreviation record := (record_entry float_of_str str_of_value).
Local Abbreviation collect := (collect_categories float_of_str str_of_value).

(** C8. [_num] is a function on every Python value (the missing value is
    [None]): where [float(x)] returns a float it returns that float, where
    [float(x)] raises, whatever the exception, it returns [None]; and a float
    that [_num] produced is coerced to itself. *)
Theorem num_total_idempotent (x : json) :
  (forall f, to_float x = Returns f -> num x = Some f) /\
  (forall e, to_float x = Raises e -> num x = None) /\
  (forall f, num x = Some f -> num (JFloat f) = Some f) /\
  num JNull = None /\
  (forall l, num (JArr l) = None) /\ (forall d, num (JObj d) = None).
Proof.
  unfold _num. repeat split.
  - intros f ->. reflexivity.
  - intros e ->. reflexivity.
Qed.

(** C10. [_num] takes [True] to 1.0 and [False] to 0.0.  A dict node with a
    name, whose only field among balance, amount, value and total holds
    [True], is appended to [cats] with the value 1.0, which the walk keeps
    first among what it collects from the node, and which the filter of
    [top_income] lets through. *)
Theorem num_bool_recorded :
  num (JBool true) = Some 1%float /\
  num (JBool false) = Some 0%float /\
  forall (node : dict) (k : string) (cats : list CategoryEntry),
    In k ["balance"; "amount"; "value"; "total"] ->
    dict_get k node = JBool true ->
    (forall k', In k' ["balance"; "amount"; "value"; "total"] -> k' <> k ->
                dict_get k' node = JNull) ->
    is_None (node_name node) = false ->
    let entry := {| name := py_str str_of_value (node_name node);
                    value := 1%float |} in
    record node cats = cats ++ [entry] /\
    (exists rest, collect (JObj node) cats = cats ++ entry :: rest) /\
    PrimFloat.ltb 0 (value entry) = true /\
    rank_income [entry] = [entry].
Proof.
  split; [reflexivity|]. split; [reflexivity|].
  intros node k cats Hk Hv Hothers Hname entry.
  assert (Hval : node_val float_of_str node = Some 1%float).
  { unfold node_val.
    assert (Hor : py_or (py_or (py_or (dict_get "balance" node)
                                      (dict_get "amount" node))
                               (dict_get "value" node))
                        (dict_get "total" node) = JBool true).
    { simpl in Hk.
      destruct Hk as [<-|[<-|[<-|[<-|[]]]]];
        rewrite Hv;
        repeat match goal with
          | |- context [dict_get ?k' node] =>
              rewrite (Hothers k') by (simpl; intuition congruence)
          end; reflexivity. }
    rewrite Hor. reflexivity. }
  assert (Hrec : forall cs, record node cs = cs ++ [entry]).
  { intros cs. unfold record_entry. rewrite Hname, Hval. reflexivity. }
  split; [apply Hrec|]. split; [|split; reflexivity].
  rewrite collect_categories_dict, Hrec.
  destruct (node_ch node) as [| | | | |l|ch].
  1-5: exists []; reflexivity.
  - rewrite (fold_collect_app collect l
               (fun c _ => collect_categories_app _ _ c)).
    rewrite <- app_assoc. eexists. reflexivity.
  - rewrite collect_categories_app, <- app_assoc. eexists. reflexivity.
Qed.

End NumericCoercion.

(** ** The fetcher and the route *)

Section Route.

Variable float_of_str : string -> option float.
Variable str_of_value : json -> string.
Variable recursion_limit : nat.
Variable FAVA_INCOME_API : string.
Variable requests_get :
  string -> list (string * string) -> Z -> outcome Response.

Local Abbreviation fetch :=
  (_http_get_income_statement FAVA_INCOME_API requests_get).
Local Abbreviation explain :=
  (explain_income_statement float_of_str str_of_value recursion_limit
     FAVA_INCOME_API requests_get).
Local Abbreviation route :=
  (income_statement_route float_of_str str_of_value recursion_limit
     FAVA_INCOME_API requests_get).
Local Abbreviation summarize :=
  (_summarize_income_statement float_of_str str_of_value recursion_limit).

(** C6. The two classified failures of the fetch.  An upstream status other
    than 200 raises [HTTPException] with that status and the detail
    "Fava returned <status>"; a [RequestException] of the call raises
    [HTTPException] with status 502 and a detail that ends in the text of
    the cause; the route raises the same exception in both cases, so it
    returns no summary; with status 200 the fetch returns what [resp.json()]
    decoded.  When the network raises nothing but [RequestException], these
    two are the only exceptions of the fetch. *)
Theorem fetch_failures_classified
    (time interval conversion filter : option string) (return_raw : bool) :
  let params := query_params time interval conversion filter in
  let upstream := requests_get FAVA_INCOME_API params 15 in
  (forall resp,
      upstream = Returns resp -> resp_status_code resp <> 200%Z ->
      let failure :=
        HTTPException (resp_status_code resp)
          ("Fava returned " ++ str_of_int (resp_status_code resp)) in
      fetch params = Raises failure /\
      explain time interval conversion filter return_raw = Raises failure) /\
  (forall cause,
      upstream = Raises (RequestException cause) ->
      let failure :=
        HTTPException 502 ("Failed to reach Fava: " ++ cause) in
      fetch params = Raises failure /\
      explain time interval conversion filter return_raw = Raises failure) /\
  (forall resp data,
      upstream = Returns resp -> resp_status_code resp = 200%Z ->
      resp_json resp = Returns data ->
      fetch params = Returns data) /\
  (forall e,
      fetch params = Raises e ->
      (forall x, upstream = Raises x -> exists c, x = RequestException c) ->
      (forall resp x, upstream = Returns resp -> resp_json resp = Raises x ->
                      exists c, x = RequestException c) ->
      (exists resp,
          upstream = Returns resp /\ resp_status_code resp <> 200%Z /\
          e = HTTPException (resp_status_code resp)
                ("Fava returned " ++ str_of_int (resp_status_code resp))) \/
      (exists cause, e = HTTPException 502 ("Failed to reach Fava: " ++ cause))).
Proof.
  intros params upstream.
  unfold explain_income_statement, _http_get_income_statement.
  fold params. fold upstream.
  split; [|split; [|split]].
  - intros resp Hup Hstatus. apply Z.eqb_neq in Hstatus.
    rewrite Hup. simpl. rewrite Hstatus. split; reflexivity.
  - intros cause Hup. rewrite Hup. split; reflexivity.
  - intros resp data Hup Hstatus Hjson.
    rewrite Hup. simpl. rewrite Hstatus, Hjson. reflexivity.
  - intros e He Hup Hjson.
    destruct upstream as [resp|x] eqn:E; simpl in He.
    + destruct (Z.eqb (resp_status_code resp) 200) eqn:Es; simpl in He.
      * destruct (resp_json resp) as [j|x] eqn:Ej; simpl in He;
          [discriminate|].
        destruct (Hjson resp x eq_refl Ej) as [c ->]. simpl in He.
        right. exists c. injection He as <-. reflexivity.
      * left. exists resp. apply Z.eqb_neq in Es.
        repeat split; [assumption|]. injection He as <-. reflexivity.
    + destruct (Hup x eq_refl) as [c ->]. simpl in He.
      right. exists c. injection He as <-. reflexivity.
Qed.

(** C9. When the route returns, its result has the key raw exactly when
    [return_raw] is true or left to its default, and the value under that
    key is the decoded upstream JSON as the fetch returned it. *)
Theorem raw_key_iff_return_raw
    (time interval conversion filter : option string)
    (return_raw : option bool) (result : result_dict) :
  route time interval conversion filter return_raw = Returns result ->
  exists data summary,
    fetch (query_params time interval conversion filter) = Returns data /\
    summarize data = Returns summary /\
    result_get "summary" result = Some (VSummary summary) /\
    (result_get "raw" result <> None <-> return_raw <> Some false) /\
    (return_raw <> Some false -> result_get "raw" result = Some (VJson data)).
Proof.
  unfold income_statement_route, explain_income_statement.
  destruct (fetch (query_params time interval conversion filter))
    as [data|e]; [|discriminate].
  simpl. destruct (summarize data) as [summary|e] eqn:Es; [|discriminate].
  simpl. intros [= <-]. exists data, summary.
  split; [reflexivity|]. split; [exact Es|].
  destruct return_raw as [[|]|]; simpl; repeat split; congruence.
Qed.

End Route.

(** ** The [or] chains take the first true value *)

Lemma py_or_chain_truthy (v : json) (post : list json) :
  truthy v = true -> fold_left py_or post v = v.
Proof.
  induction post as [|w post IH]; simpl; intros Hv; [reflexivity|].
  rewrite (py_or_truthy v w Hv). apply IH, Hv.
Qed.

Lemma py_or_chain_first_truthy (pre : list json) (v : json) (post : list json) :
  Forall (fun w => truthy w = false) pre -> truthy v = true ->
  forall a, truthy a = false -> fold_left py_or (pre ++ v :: post) a = v.
Proof.
  induction pre as [|w pre IH]; intros Hpre Hv a Ha; simpl.
  - rewrite (py_or_falsy a v Ha). apply py_or_chain_truthy, Hv.
  - inversion Hpre as [|w' pre' Hw Hpre']; subst.
    rewrite (py_or_falsy a w Ha). apply IH; assumption.
Qed.

Lemma py_or_chain_all_falsy (vs : list json) :
  Forall (fun w => truthy w = false) vs ->
  forall a, truthy a = false -> truthy (fold_left py_or vs a) = false.
Proof.
  induction vs as [|w vs IH]; intros Hvs a Ha; simpl; [exact Ha|].
  inversion Hvs as [|w' vs' Hw Hvs']; subst.
  rewrite (py_or_falsy a w Ha). apply IH; assumption.
Qed.

Lemma or_chain_first_truthy_key (node : dict) (keys : list string) (k : string) :
  first_truthy_key node keys k ->
  fold_left py_or (map (fun k' => dict_get k' node) keys) JNull
  = dict_get k node.
Proof.
  intros (pre & post & -> & Hpre & Hk).
  rewrite map_app. simpl map.
  apply py_or_chain_first_truthy; [|exact Hk|reflexivity].
  apply Forall_map. exact Hpre.
Qed.

Lemma truthy_not_None (v : json) : truthy v = true -> is_None v = false.
Proof. destruct v; simpl; congruence. Qed.

Lemma or_chain_all_falsy_last (node : dict) (keys : list string) :
  keys <> [] ->
  Forall (fun k => truthy (dict_get k node) = false) keys ->
  forall a, truthy a = false ->
    fold_left py_or (map (fun k => dict_get k node) keys) a
    = dict_get (last keys "") node.
Proof.
  induction keys as [|k keys IH]; intros Hne Hall a Ha; [contradiction|].
  inversion Hall as [|k' keys' Hk Hkeys]; subst.
  cbn [map fold_left]. rewrite (py_or_falsy a _ Ha).
  destruct keys as [|k2 keys]; [reflexivity|].
  change (last (k :: k2 :: keys) "") with (last (k2 :: keys) "").
  apply IH; [discriminate|exact Hkeys|exact Hk].
Qed.

(** An [or] chain over the values of [keys] is the value of the picked key. *)
Lemma or_chain_picked_key (node : dict) (keys : list string) (k : string) :
  keys <> [] -> picked_key node keys k ->
  fold_left py_or (map (fun k' => dict_get k' node) keys) JNull
  = dict_get k node.
Proof.
  intros Hne [H|[Hall ->]].
  - now apply or_chain_first_truthy_key.
  - now apply or_chain_all_falsy_last.
Qed.

(** Every chain picks a key. *)
Lemma picked_key_exists (node : dict) (keys : list string) :
  exists k, picked_key node keys k.
Proof.
  induction keys as [|k keys IH].
  - exists "". right. split; [constructor|reflexivity].
  - destruct (truthy (dict_get k node)) eqn:Hk.
    + exists k. left. exists [], keys.
      split; [reflexivity|]. split; [constructor|exact Hk].
    + destruct keys as [|k2 keys].
      * exists k. right. split; [repeat constructor; exact Hk|reflexivity].
      * destruct IH as [k' [(pre & post & Heq & Hpre & Ht)|[Hall ->]]].
        -- exists k'. left. exists (k :: pre), post.
           split; [now rewrite Heq|]. split; [now constructor|exact Ht].
        -- exists (last (k2 :: keys) ""). right.
           split; [now constructor|reflexivity].
Qed.

(** ** The walk under the recursion limit *)

Lemma fold_bind_raises {A B} (g : B -> A -> outcome A) (l : list B) (e : exn) :
  fold_left (fun acc c => x <- acc ;; g c x) l (Raises e) = Raises e.
Proof. induction l as [|c l IH]; simpl; [reflexivity|exact IH]. Qed.

Lemma truthy_deep_children (n : nat) :
  exists ch, deep_children n = JObj ch /\ truthy (JObj ch) = true.
Proof. destruct n; simpl; eexists; split; reflexivity. Qed.

Section WalkWithin.

Variable float_of_str : string -> option float.
Variable str_of_value : json -> string.
Variable recursion_limit : nat.

Local Abbreviation within :=
  (collect_categories_within float_of_str str_of_value).
Local Abbreviation collect_fuel :=
  (collect_categories_fuel float_of_str str_of_value).
Local Abbreviation collect := (collect_categories float_of_str str_of_value).
Local Abbreviation record := (record_entry float_of_str str_of_value).
Local Abbreviation all_within :=
  (collect_all_within float_of_str str_of_value recursion_limit).
Local Abbreviation all_cats := (collect_all float_of_str str_of_value).
Local Abbreviation summarize :=
  (_summarize_income_statement float_of_str str_of_value recursion_limit).
Local Abbreviation summary_of := (summarize_dict float_of_str str_of_value).

Lemma fold_within_returns (f m : nat) (l : list json) :
  (forall c, In c l -> forall cats r,
      within f c cats = Returns r -> collect_fuel m c cats = r) ->
  forall acc r,
    fold_left (fun acc c => cats' <- acc ;; within f c cats') l (Returns acc)
    = Returns r ->
    fold_left (fun acc c => collect_fuel m c acc) l acc = r.
Proof.
  induction l as [|c l IH]; intros H acc r; simpl.
  - now intros [= <-].
  - destruct (within f c acc) as [r1|e] eqn:E.
    + rewrite (H c (or_introl eq_refl) acc r1 E). apply IH.
      intros c' Hc'. apply H. now right.
    + rewrite fold_bind_raises. discriminate.
Qed.

(** A walk that the limit lets through collects what the walk collects
    with any fuel at least as large. *)
Lemma within_returns_fuel (f : nat) :
  forall node cats r,
    within f node cats = Returns r ->
    forall m, (f <= m)%nat -> collect_fuel m node cats = r.
Proof.
  induction f as [|f IH]; intros node cats r H m Hm; [discriminate H|].
  destruct m as [|m]; [lia|].
  cbn [collect_categories_within] in H. cbn [collect_categories_fuel].
  destruct node as [| | | | |l|d]; try (now injection H as <-).
  - apply (fold_within_returns f m l); [|exact H].
    intros c _ cats' r' Hr. apply (IH c cats' r' Hr). lia.
  - destruct f as [|b]; [discriminate H|].
    destruct (node_ch d) as [| | | | |l|ch]; try (now injection H as <-).
    + apply (fold_within_returns (S b) m l); [|exact H].
      intros c _ cats' r' Hr. apply (IH c cats' r' Hr). lia.
    + apply (IH _ _ _ H). lia.
Qed.

Lemma within_agrees (f : nat) (node : json) (cats r : list CategoryEntry) :
  within f node cats = Returns r -> r = collect node cats.
Proof.
  intros H. unfold collect_categories.
  rewrite (collect_fuel_irrelevant float_of_str str_of_value
             (S (json_depth node)) (Nat.max f (S (json_depth node))))
    by lia.
  symmetry. apply (within_returns_fuel f _ _ _ H). lia.
Qed.

Lemma fold_within_raises (f : nat) (l : list json) :
  (forall c, In c l -> forall cats e,
      within f c cats = Raises e -> e = RecursionError) ->
  forall acc e,
    fold_left (fun acc c => cats' <- acc ;; within f c cats') l (Returns acc)
    = Raises e ->
    e = RecursionError.
Proof.
  induction l as [|c l IH]; intros H acc e; simpl; [discriminate|].
  destruct (within f c acc) as [r1|e1] eqn:E.
  - apply IH. intros c' Hc'. apply H. now right.
  - rewrite fold_bind_raises. intros [= <-].
    apply (H c (or_introl eq_refl) acc e1 E).
Qed.

(** The walk raises nothing but [RecursionError]. *)
Lemma within_raises_recursion_error (f : nat) :
  forall node cats e, within f node cats = Raises e -> e = RecursionError.
Proof.
  induction f as [|f IH]; intros node cats e H; [now injection H as <-|].
  cbn [collect_categories_within] in H.
  destruct node as [| | | | |l|d]; try discriminate H.
  - apply (fold_within_raises f l (fun c _ => IH c) _ _ H).
  - destruct f as [|b]; [now injection H as <-|].
    destruct (node_ch d) as [| | | | |l|ch]; try discriminate H.
    + apply (fold_within_raises (S b) l (fun c _ => IH c) _ _ H).
    + apply (IH _ _ _ H).
Qed.

Lemma fold_within_enough (f : nat) (l : list json) :
  (forall c, In c l -> forall cats, exists r, within f c cats = Returns r) ->
  forall acc, exists r,
    fold_left (fun acc c => cats' <- acc ;; within f c cats') l (Returns acc)
    = Returns r.
Proof.
  induction l as [|c l IH]; intros H acc; simpl; [now exists acc|].
  destruct (H c (or_introl eq_refl) acc) as [r1 ->].
  apply IH. intros c' Hc'. apply H. now right.
Qed.

(** Two frames more than the nesting depth are enough for the walk. *)
Lemma within_enough (f : nat) :
  forall node cats,
    (json_depth node + 2 <= f)%nat -> exists r, within f node cats = Returns r.
Proof.
  induction f as [|f IH]; intros node cats Hf; [lia|].
  cbn [collect_categories_within].
  destruct node as [| | | | |l|d]; try (eexists; reflexivity).
  - apply fold_within_enough. intros c Hc cats'.
    pose proof (depth_elem_le l c Hc). simpl in Hf. apply IH. lia.
  - destruct f as [|b]; [lia|].
    pose proof (depth_node_ch d) as Hd.
    destruct (node_ch d) as [| | | | |l|ch] eqn:E; try (eexists; reflexivity).
    + apply fold_within_enough. intros c Hc cats'.
      pose proof (depth_elem_le l c Hc) as Hc'.
      assert (Hlt : (json_depth c < json_depth (JArr l))%nat)
        by (simpl; lia).
      apply IH. lia.
    + apply IH. lia.
Qed.

Lemma within_dict (f : nat) (d : dict) (cats : list CategoryEntry) :
  within (S (S f)) (JObj d) cats
  = match node_ch d with
    | JArr l =>
        fold_left (fun acc c => cats' <- acc ;; within (S f) c cats') l
          (Returns (record d cats))
    | JObj ch => within (S f) (JObj ch) (record d cats)
    | _ => Returns (record d cats)
    end.
Proof. reflexivity. Qed.

(** A chain of dicts deeper than the limit allows makes the walk raise. *)
Lemma within_deep_children_raises (n : nat) :
  forall f cats,
    (f < n + 2)%nat ->
    within f (deep_children n) cats = Raises RecursionError.
Proof.
  induction n as [|n IH]; intros f cats Hf.
  - destruct f as [|[|f]]; [reflexivity|reflexivity|lia].
  - destruct f as [|[|f]]; [reflexivity|reflexivity|].
    cbn [deep_children]. rewrite within_dict.
    destruct (truthy_deep_children n) as (ch & Hch & Ht).
    assert (Hnode : node_ch [("children", deep_children n)] = JObj ch).
    { unfold node_ch. simpl dict_get. rewrite Hch.
      unfold py_or at 2. rewrite Ht. unfold py_or. now rewrite Ht. }
    rewrite Hnode, <- Hch. apply IH. lia.
Qed.

Lemma fold_keys_within (data : dict) (keys : list string) :
  forall acc,
    (forall r,
        fold_left
          (fun acc key =>
             cats <- acc ;;
             if dict_has key data
             then within recursion_limit (dict_get key data) cats
             else Returns cats) keys (Returns acc) = Returns r ->
        r = fold_left
              (fun cats key =>
                 if dict_has key data
                 then collect (dict_get key data) cats else cats) keys acc) /\
    (forall e,
        fold_left
          (fun acc key =>
             cats <- acc ;;
             if dict_has key data
             then within recursion_limit (dict_get key data) cats
             else Returns cats) keys (Returns acc) = Raises e ->
        e = RecursionError) /\
    ((json_depth (JObj data) < recursion_limit)%nat ->
     exists r,
       fold_left
         (fun acc key =>
            cats <- acc ;;
            if dict_has key data
            then within recursion_limit (dict_get key data) cats
            else Returns cats) keys (Returns acc) = Returns r).
Proof.
  induction keys as [|key keys IH]; intros acc; simpl.
  - repeat split; [now intros r [= <-]|discriminate|now exists acc].
  - destruct (dict_has key data).
    + destruct (within recursion_limit (dict_get key data) acc)
        as [r1|e1] eqn:E; simpl.
      * rewrite <- (within_agrees _ _ _ _ E). apply IH.
      * rewrite fold_bind_raises. repeat split; try discriminate.
        -- intros e [= <-].
           apply (within_raises_recursion_error _ _ _ _ E).
        -- intros Hd.
           destruct (within_enough recursion_limit (dict_get key data) acc)
             as [r Hr]; [|congruence].
           pose proof (depth_dict_get_le key data). simpl in Hd. lia.
    + apply IH.
Qed.

(** The summariser on a dict: what it returns is [summarize_dict], what it
    raises is [RecursionError], and it returns when the dict is nested less
    deep than the limit. *)
Lemma summarize_returns (d : dict) (s : Summary) :
  summarize (JObj d) = Returns s -> s = summary_of d.
Proof.
  unfold _summarize_income_statement, collect_all_within.
  destruct recursion_limit as [|n] eqn:El; [discriminate|]. rewrite <- El.
  destruct (fold_left _ _ (Returns [])) as [cats|e] eqn:E; [|discriminate].
  apply (proj1 (fold_keys_within d _ [])) in E. simpl.
  intros [= <-]. unfold summarize_dict, collect_all. now rewrite <- E.
Qed.

Lemma summarize_raises (d : dict) (e : exn) :
  summarize (JObj d) = Raises e ->
  e = RecursionError /\ (recursion_limit <= json_depth (JObj d))%nat.
Proof.
  unfold _summarize_income_statement, collect_all_within.
  destruct recursion_limit as [|n] eqn:El.
  - intros [= <-]. split; [reflexivity|lia].
  - rewrite <- El.
    destruct (fold_left _ _ (Returns [])) as [cats|e'] eqn:E; [discriminate|].
    simpl. intros [= <-].
    split; [apply (proj1 (proj2 (fold_keys_within d _ [])) _ E)|].
    destruct (Nat.le_gt_cases recursion_limit (json_depth (JObj d)))
      as [H|H]; [exact H|].
    destruct (proj2 (proj2 (fold_keys_within d
                               ["children"; "accounts"; "items"; "tree"; "data"]
                               [])) H) as [r Hr].
    congruence.
Qed.

Lemma summarize_enough (d : dict) :
  (json_depth (JObj d) < recursion_limit)%nat ->
  summarize (JObj d) = Returns (summary_of d).
Proof.
  intros H. destruct (summarize (JObj d)) as [s|e] eqn:E.
  - now rewrite (summarize_returns d s E).
  - apply summarize_raises in E. lia.
Qed.

End WalkWithin.

(** ** The summariser *)

Section Summariser.

Variable float_of_str : string -> option float.
Variable str_of_value : json -> string.
Variable recursion_limit : nat.

Local Abbreviation num := (_num float_of_str).
Local Abbreviation record := (record_entry float_of_str str_of_value).
Local Abbreviation collect := (collect_categories float_of_str str_of_value).
Local Abbreviation all_cats := (collect_all float_of_str str_of_value).
Local Abbreviation summary_of := (summarize_dict float_of_str str_of_value).
Local Abbreviation summarize :=
  (_summarize_income_statement float_of_str str_of_value recursion_limit).
Local Abbreviation totals_of := (derive_totals float_of_str).

(** C1, as amended.  On a dict nested less deep than the interpreter's
    recursion limit allows, the summariser returns a summary and does not
    raise; whatever it returns on a dict is [summarize_dict], and the only
    thing it raises on one is [RecursionError], on a dict nested at least as
    deep as the limit.  When the dict has none of the keys totals, income,
    expenses, net_profit, net and profit, the three totals of the summary
    are [None]; when it has none of the keys children, accounts, items, tree
    and data, both ranked lists are empty. *)
Theorem summarize_dict_total (d : dict) :
  ((json_depth (JObj d) < recursion_limit)%nat ->
   summarize (JObj d) = Returns (summary_of d)) /\
  (forall s, summarize (JObj d) = Returns s -> s = summary_of d) /\
  (forall e, summarize (JObj d) = Raises e ->
             e = RecursionError /\
             (recursion_limit <= json_depth (JObj d))%nat) /\
  ((forall k, In k ["totals"; "income"; "expenses"; "net_profit"; "net"; "profit"] ->
              dict_has k d = false) ->
   totals (summary_of d)
   = {| income := None; expenses := None; net_profit := None |}) /\
  ((forall k, In k ["children"; "accounts"; "items"; "tree"; "data"] ->
              dict_has k d = false) ->
   top_income (summary_of d) = [] /\ top_expenses (summary_of d) = []).
Proof.
  split; [apply summarize_enough|]. split; [apply summarize_returns|].
  split; [apply summarize_raises|]. split.
  - intros H. unfold summarize_dict, derive_totals. simpl totals.
    rewrite !dict_get_absent by (apply H; simpl; tauto).
    reflexivity.
  - intros H. unfold summarize_dict, collect_all. simpl.
    rewrite !H by (simpl; tauto). split; reflexivity.
Qed.


Lemma totals_net_chain (t : dict) :
  py_or (py_or (dict_get "net" t) (dict_get "profit" t)) (dict_get "net_profit" t)
  = fold_left py_or (map (fun k => dict_get k t) totals_net_keys) JNull.
Proof. reflexivity. Qed.

Lemma net_chain (data : dict) :
  py_or (py_or (dict_get "net_profit" data) (dict_get "net" data))
        (dict_get "profit" data)
  = fold_left py_or (map (fun k => dict_get k data) net_keys) JNull.
Proof. reflexivity. Qed.

(** C3, as amended.  The key a chain takes its value from is the first
    whose value is true (not [None], not zero, not empty), and the last of
    the chain when none is.  When totals is a dict, a number under the key
    picked among its net, profit, net_profit is the net profit.  When totals
    is no dict, or the value under the key picked in it is no number, a
    number under the key picked among the top-level net_profit, net, profit
    is the net profit; and when that value is no number either, the net
    profit is the sum of income and expenses if both are known, and unknown
    otherwise.  So an earlier key that is present with a zero is passed
    over, and a zero under the last key is used. *)
Theorem net_from_first_truthy_key (data : dict) :
  let no_totals_net :=
    forall t k', dict_get "totals" data = JObj t ->
                 picked_key t totals_net_keys k' ->
                 num (dict_get k' t) = None in
  (forall t k v,
      dict_get "totals" data = JObj t ->
      picked_key t totals_net_keys k ->
      num (dict_get k t) = Some v ->
      net_profit (totals_of data) = Some v) /\
  (forall k v,
      no_totals_net ->
      picked_key data net_keys k ->
      num (dict_get k data) = Some v ->
      net_profit (totals_of data) = Some v) /\
  (forall k,
      no_totals_net ->
      picked_key data net_keys k ->
      num (dict_get k data) = None ->
      net_profit (totals_of data)
      = match income (totals_of data), expenses (totals_of data) with
        | Some i, Some e => Some (i + e)%float
        | _, _ => None
        end) /\
  (forall t, exists k, picked_key t totals_net_keys k) /\
  (exists k, picked_key data net_keys k).
Proof.
  intros no_totals_net.
  assert (Hstage : no_totals_net ->
            forall k, picked_key data net_keys k ->
            net_profit (totals_of data)
            = match num (dict_get k data) with
              | Some v => Some v
              | None =>
                  match income (totals_of data), expenses (totals_of data) with
                  | Some i, Some e => Some (i + e)%float
                  | _, _ => None
                  end
              end).
  { intros Hno k Hk. unfold derive_totals.
    rewrite net_chain, (or_chain_picked_key data net_keys k) by
      (discriminate || exact Hk).
    destruct (dict_get "totals" data) as [| | | | | |t] eqn:Et;
      cbn beta iota zeta.
    7: { destruct (picked_key_exists t totals_net_keys) as [k' Hk'].
         rewrite totals_net_chain, (or_chain_picked_key t totals_net_keys k')
           by (discriminate || exact Hk').
         rewrite (Hno t k' eq_refl Hk').
         destruct (num (dict_get k data)),
           (num (dict_get "income" t)), (num (dict_get "expenses" t)),
           (num (dict_get "income" data)), (num (dict_get "expenses" data));
           reflexivity. }
    all: destruct (num (dict_get k data)),
           (num (dict_get "income" data)), (num (dict_get "expenses" data));
      reflexivity. }
  split; [|split; [|split; [|split]]].
  - intros t k v Et Hk Hv. unfold derive_totals. rewrite Et.
    rewrite totals_net_chain, (or_chain_picked_key t _ k) by
      (discriminate || exact Hk).
    rewrite Hv. cbn beta iota zeta.
    destruct (num (dict_get "income" t)), (num (dict_get "expenses" t)),
      (num (dict_get "income" data)), (num (dict_get "expenses" data));
      reflexivity.
  - intros k v Hno Hk Hv. rewrite (Hstage Hno k Hk), Hv. reflexivity.
  - intros k Hno Hk Hv. rewrite (Hstage Hno k Hk), Hv. reflexivity.
  - intros t. apply picked_key_exists.
  - apply picked_key_exists.
Qed.

End Summariser.

(** ** The walk over the category tree *)

Section Walker.

Variable float_of_str : string -> option float.
Variable str_of_value : json -> string.

Local Abbreviation num := (_num float_of_str).
Local Abbreviation str := (py_str str_of_value).
Local Abbreviation val_of := (node_val float_of_str).
Local Abbreviation record := (record_entry float_of_str str_of_value).
Local Abbreviation collect := (collect_categories float_of_str str_of_value).

Lemma node_name_chain (node : dict) :
  node_name node
  = fold_left py_or (map (fun k => dict_get k node) name_keys) JNull.
Proof. reflexivity. Qed.

Lemma node_val_chain (node : dict) :
  val_of node
  = num (fold_left py_or (map (fun k => dict_get k node) value_keys) JNull).
Proof. reflexivity. Qed.

Lemma node_ch_chain (node : dict) :
  node_ch node
  = fold_left py_or (map (fun k => dict_get k node) child_keys) JNull.
Proof. reflexivity. Qed.

(** C2, as amended.  The key a chain takes its value from is the first
    whose value is true (not [None], not empty, not zero), and the last of
    the chain when none is.  At a dict node the name is the value under the
    key picked among name, label, account, title, the value is the coercion
    of the value under the key picked among balance, amount, value, total,
    and an entry of these two is appended exactly when that name is not
    [None] and that value is a number.  So no later key supplies the name or
    the value when an earlier one holds a true value, and title and total
    supply them when no key does. *)
Theorem entry_from_first_truthy_keys (node : dict) (cats : list CategoryEntry) :
  (forall kn, first_truthy_key node name_keys kn ->
              node_name node = dict_get kn node) /\
  (forall kv, first_truthy_key node value_keys kv ->
              val_of node = num (dict_get kv node)) /\
  (forall kn kv,
      first_truthy_key node name_keys kn ->
      first_truthy_key node value_keys kv ->
      record node cats =
      match num (dict_get kv node) with
      | Some v => cats ++ [ {| name := str (dict_get kn node); value := v |} ]
      | None => cats
      end) /\
  (forall kn, picked_key node name_keys kn ->
              node_name node = dict_get kn node) /\
  (forall kv, picked_key node value_keys kv ->
              val_of node = num (dict_get kv node)) /\
  (forall kn kv,
      picked_key node name_keys kn ->
      picked_key node value_keys kv ->
      record node cats =
      match is_None (dict_get kn node), num (dict_get kv node) with
      | false, Some v =>
          cats ++ [ {| name := str (dict_get kn node); value := v |} ]
      | _, _ => cats
      end) /\
  (exists kn kv,
      picked_key node name_keys kn /\ picked_key node value_keys kv).
Proof.
  assert (Hn : forall kn, picked_key node name_keys kn ->
                          node_name node = dict_get kn node).
  { intros kn H. rewrite node_name_chain.
    apply or_chain_picked_key; [discriminate|exact H]. }
  assert (Hv : forall kv, picked_key node value_keys kv ->
                          val_of node = num (dict_get kv node)).
  { intros kv H. rewrite node_val_chain.
    rewrite (or_chain_picked_key node value_keys kv); [reflexivity| |exact H].
    discriminate. }
  split; [intros kn H; apply Hn; now left|].
  split; [intros kv H; apply Hv; now left|].
  split.
  { intros kn kv Hkn Hkv. unfold record_entry.
    rewrite (Hn kn (or_introl Hkn)), (Hv kv (or_introl Hkv)).
    destruct Hkn as (_ & _ & _ & _ & Ht).
    rewrite (truthy_not_None _ Ht). reflexivity. }
  split; [exact Hn|]. split; [exact Hv|]. split.
  - intros kn kv Hkn Hkv. unfold record_entry.
    rewrite (Hn kn Hkn), (Hv kv Hkv). reflexivity.
  - destruct (picked_key_exists node name_keys) as [kn Hkn].
    destruct (picked_key_exists node value_keys) as [kv Hkv].
    now exists kn, kv.
Qed.

(** C4, as amended.  After the node's own entry, the walk goes on with the
    value of the first of children, accounts, items whose value is true (a
    list that is not empty, a dict that is not empty): into each element of
    a list, into a dict itself.  When none of the three holds a true value,
    nothing below the node is collected. *)
Theorem recursion_into_first_truthy_child
    (node : dict) (cats : list CategoryEntry) :
  (forall k, first_truthy_key node child_keys k ->
     collect (JObj node) cats =
     match dict_get k node with
     | JArr l => fold_left (fun acc c => collect c acc) l (record node cats)
     | JObj ch => collect (JObj ch) (record node cats)
     | _ => record node cats
     end) /\
  (Forall (fun k => truthy (dict_get k node) = false) child_keys ->
   collect (JObj node) cats = record node cats).
Proof.
  split.
  - intros k H. rewrite collect_categories_dict, node_ch_chain.
    now rewrite (or_chain_first_truthy_key node child_keys k H).
  - intros H. rewrite collect_categories_dict.
    assert (Hf : truthy (node_ch node) = false).
    { rewrite node_ch_chain. apply py_or_chain_all_falsy; [|reflexivity].
      apply Forall_map. exact H. }
    destruct (node_ch node) as [| | | | |l|ch]; try reflexivity.
    + destruct l; [reflexivity|discriminate].
    + destruct ch; [reflexivity|discriminate].
Qed.

End Walker.

(** ** The order of floats

    [<], [<=] and [==] on binary64 numbers, through their specification
    [SFcompare]; a float is a number (not NaN) when it equals itself. *)

Lemma SFleb_trans (a b c : spec_float) :
  SFleb a b = true -> SFleb b c = true -> SFleb a c = true.
Proof.
  unfold SFleb, SFcompare.
  destruct a as [sa|sa| |sa ma ea], b as [sb|sb| |sb mb eb],
           c as [sc|sc| |sc mc ec];
    try (destruct sa); try (destruct sb); try (destruct sc);
    try reflexivity; try discriminate;
    change (Pos.compare_cont Eq) with Pos.compare;
    destruct (Z.compare_spec ea eb), (Z.compare_spec eb ec),
      (Z.compare_spec ea ec);
    try reflexivity; try discriminate; try lia; subst;
    destruct (Pos.compare_spec ma mb), (Pos.compare_spec mb mc),
      (Pos.compare_spec ma mc);
    simpl; try reflexivity; try discriminate; try lia.
Qed.

Lemma SFltb_leb (a b : spec_float) : SFltb a b = true -> SFleb a b = true.
Proof.
  unfold SFltb, SFleb. destruct (SFcompare a b) as [[| |]|]; congruence.
Qed.

Lemma SFleb_total (a b : spec_float) :
  SFeqb a a = true -> SFeqb b b = true ->
  SFltb a b = false -> SFleb b a = true.
Proof.
  unfold SFeqb, SFltb, SFleb, SFcompare.
  destruct a as [sa|sa| |sa ma ea], b as [sb|sb| |sb mb eb];
    try (destruct sa); try (destruct sb);
    try reflexivity; try discriminate;
    change (Pos.compare_cont Eq) with Pos.compare;
    intros _ _;
    rewrite (Z.compare_antisym ea eb), (Pos.compare_antisym ma mb);
    destruct (Z.compare ea eb), (Pos.compare ma mb);
    simpl; try reflexivity; try discriminate.
Qed.

Lemma SFeqb_not_ltb (v x y : spec_float) :
  SFeqb v x = true -> SFeqb v y = true -> SFltb x y = false.
Proof.
  unfold SFeqb, SFltb, SFcompare.
  destruct v as [sv|sv| |sv mv ev], x as [sx|sx| |sx mx ex],
           y as [sy|sy| |sy my ey];
    try (destruct sv); try (destruct sx); try (destruct sy);
    try reflexivity; try discriminate;
    change (Pos.compare_cont Eq) with Pos.compare;
    destruct (Z.compare_spec ev ex), (Z.compare_spec ev ey);
    try discriminate; subst;
    destruct (Pos.compare_spec mv mx), (Pos.compare_spec mv my);
    try discriminate; subst;
    rewrite Z.compare_refl, Pos.compare_refl; reflexivity.
Qed.

Lemma SFltb_number_r (a b : spec_float) :
  SFltb a b = true -> SFeqb b b = true.
Proof.
  unfold SFeqb, SFltb, SFcompare.
  destruct a as [sa|sa| |sa ma ea], b as [sb|sb| |sb mb eb];
    try (destruct sa); try (destruct sb);
    try reflexivity; try discriminate;
    change (Pos.compare_cont Eq) with Pos.compare;
    rewrite Z.compare_refl, Pos.compare_refl; reflexivity.
Qed.

Lemma SFltb_number_abs_l (a b : spec_float) :
  SFltb a b = true -> SFeqb (SFabs a) (SFabs a) = true.
Proof.
  unfold SFeqb, SFltb, SFcompare.
  destruct a as [sa|sa| |sa ma ea], b as [sb|sb| |sb mb eb];
    try (destruct sa); try (destruct sb);
    try reflexivity; try discriminate; simpl;
    change (Pos.compare_cont Eq) with Pos.compare;
    rewrite Z.compare_refl, Pos.compare_refl; reflexivity.
Qed.

Lemma SFeqb_zero_not_ltb (v : spec_float) :
  SFeqb v (S754_zero false) = true ->
  SFltb (S754_zero false) v = false /\ SFltb v (S754_zero false) = false.
Proof.
  unfold SFeqb, SFltb, SFcompare.
  destruct v as [sv|sv| |sv mv ev]; try (destruct sv);
    try discriminate; split; reflexivity.
Qed.

Lemma float_leb_trans (a b c : float) :
  PrimFloat.leb a b = true -> PrimFloat.leb b c = true ->
  PrimFloat.leb a c = true.
Proof. rewrite !leb_spec. apply SFleb_trans. Qed.

Lemma float_ltb_leb (a b : float) :
  PrimFloat.ltb a b = true -> PrimFloat.leb a b = true.
Proof. rewrite ltb_spec, leb_spec. apply SFltb_leb. Qed.

Lemma float_leb_total (a b : float) :
  is_number a = true -> is_number b = true ->
  PrimFloat.ltb a b = false -> PrimFloat.leb b a = true.
Proof.
  unfold is_number. rewrite !eqb_spec, ltb_spec, leb_spec. apply SFleb_total.
Qed.

Lemma float_eqb_not_ltb (v x y : float) :
  PrimFloat.eqb v x = true -> PrimFloat.eqb v y = true ->
  PrimFloat.ltb x y = false.
Proof. rewrite !eqb_spec, ltb_spec. apply SFeqb_not_ltb. Qed.

Lemma positive_is_number (v : float) :
  PrimFloat.ltb 0 v = true -> is_number v = true.
Proof. unfold is_number. rewrite ltb_spec, eqb_spec. apply SFltb_number_r. Qed.

Lemma negative_abs_is_number (v : float) :
  PrimFloat.ltb v 0 = true -> is_number (PrimFloat.abs v) = true.
Proof.
  unfold is_number. rewrite ltb_spec, eqb_spec, abs_spec.
  apply SFltb_number_abs_l.
Qed.

Lemma zero_not_ranked (v : float) :
  PrimFloat.eqb v 0 = true ->
  PrimFloat.ltb 0 v = false /\ PrimFloat.ltb v 0 = false.
Proof. rewrite eqb_spec, !ltb_spec. apply SFeqb_zero_not_ltb. Qed.

Lemma nan_not_ranked (v : float) :
  is_number v = false ->
  PrimFloat.ltb 0 v = false /\ PrimFloat.ltb v 0 = false.
Proof.
  unfold is_number. rewrite eqb_spec, !ltb_spec.
  unfold SFeqb, SFltb, SFcompare.
  destruct (Prim2SF v) as [s|s| |s m e]; try (destruct s);
    try discriminate; try (split; reflexivity);
    change (Pos.compare_cont Eq) with Pos.compare;
    rewrite Z.compare_refl, Pos.compare_refl; discriminate.
Qed.

(** ** The sort *)

Section Sorting.

Context {A : Type} (key : A -> float).

Local Abbreviation numbers :=
  (Forall (fun x : A => is_number (key x) = true)).

Lemma insert_reverse_perm (x : A) (l : list A) :
  Permutation (insert_reverse key x l) (x :: l).
Proof.
  induction l as [|y l IH]; simpl; [reflexivity|].
  destruct (PrimFloat.ltb (key x) (key y)); [|reflexivity].
  rewrite IH. apply perm_swap.
Qed.

Lemma sorted_reverse_perm (l : list A) : Permutation (sorted_reverse key l) l.
Proof.
  induction l as [|x l IH]; simpl; [reflexivity|].
  rewrite insert_reverse_perm. now apply perm_skip.
Qed.

Lemma insert_reverse_sorted (x : A) (l : list A) :
  is_number (key x) = true -> numbers l ->
  StronglySorted (descending key) l ->
  StronglySorted (descending key) (insert_reverse key x l).
Proof.
  intros Hx Hl Hs. induction Hs as [|y l Hs IH Hy]; simpl.
  - constructor; constructor.
  - inversion Hl as [|y' l' Hny Hnl]; subst.
    destruct (PrimFloat.ltb (key x) (key y)) eqn:E.
    + constructor; [apply IH, Hnl|].
      apply (Permutation_Forall (Permutation_sym (insert_reverse_perm x l))).
      constructor; [apply float_ltb_leb, E|exact Hy].
    + assert (Hyx : descending key x y)
        by (apply float_leb_total; assumption).
      constructor; [constructor; assumption|].
      constructor; [exact Hyx|].
      apply (Forall_impl _ (P := descending key y)); [|exact Hy].
      intros b Hb. unfold descending in *.
      apply (float_leb_trans _ (key y)); assumption.
Qed.

Lemma sorted_reverse_sorted (l : list A) :
  numbers l -> StronglySorted (descending key) (sorted_reverse key l).
Proof.
  induction l as [|x l IH]; simpl; intros Hl; [constructor|].
  inversion Hl as [|x' l' Hx Hl']; subst.
  apply insert_reverse_sorted; [exact Hx| |apply IH, Hl'].
  apply (Permutation_Forall (Permutation_sym (sorted_reverse_perm l))), Hl'.
Qed.

(** Elements of equal key keep their order: the sort is stable. *)
Lemma insert_reverse_stable (v : float) (x : A) (l : list A) :
  filter (fun c => PrimFloat.eqb v (key c)) (insert_reverse key x l)
  = filter (fun c => PrimFloat.eqb v (key c)) (x :: l).
Proof.
  induction l as [|y l IH]; [reflexivity|].
  cbn [insert_reverse].
  destruct (PrimFloat.ltb (key x) (key y)) eqn:E; [|reflexivity].
  cbn [filter] in *. rewrite IH.
  destruct (PrimFloat.eqb v (key x)) eqn:Ex;
    destruct (PrimFloat.eqb v (key y)) eqn:Ey; try reflexivity.
  rewrite (float_eqb_not_ltb v (key x) (key y) Ex Ey) in E. discriminate.
Qed.

Lemma sorted_reverse_stable (v : float) (l : list A) :
  filter (fun c => PrimFloat.eqb v (key c)) (sorted_reverse key l)
  = filter (fun c => PrimFloat.eqb v (key c)) l.
Proof.
  induction l as [|x l IH]; [reflexivity|].
  cbn [sorted_reverse fold_right]. fold (sorted_reverse key l).
  rewrite insert_reverse_stable. cbn [filter]. now rewrite IH.
Qed.

End Sorting.

Lemma In_firstn {A} (n : nat) (l : list A) (x : A) :
  In x (firstn n l) -> In x l.
Proof.
  intros H. rewrite <- (firstn_skipn n l). apply in_or_app. now left.
Qed.

(** ** The ranking *)

Lemma rank_income_eq (cats : list CategoryEntry) :
  rank_income cats
  = firstn 5 (sorted_reverse value
                (filter (fun c => PrimFloat.ltb 0 (value c)) cats)).
Proof. destruct cats; reflexivity. Qed.

Lemma rank_expenses_eq (cats : list CategoryEntry) :
  rank_expenses cats
  = firstn 5 (sorted_reverse (fun x => PrimFloat.abs (value x))
                (filter (fun c => PrimFloat.ltb (value c) 0) cats)).
Proof. destruct cats; reflexivity. Qed.

(** C7.  [top_income] is the first five of the entries of positive value,
    sorted: the sorted list holds exactly those entries, each entry is at
    least as large as every later one, and entries of equal value stand in
    the order of [cats]; [top_expenses] is the same for the entries of
    negative value, sorted by absolute value.  Neither list is longer than
    five, and an entry whose value is zero, or not a number, is in neither. *)
Theorem ranking_sorted_top5 (cats : list CategoryEntry) :
  let positive := filter (fun c => PrimFloat.ltb 0 (value c)) cats in
  let negative := filter (fun c => PrimFloat.ltb (value c) 0) cats in
  let magnitude := fun c => PrimFloat.abs (value c) in
  (rank_income cats = firstn 5 (sorted_reverse value positive) /\
   Permutation (sorted_reverse value positive) positive /\
   StronglySorted (descending value) (sorted_reverse value positive) /\
   (forall v, filter (fun c => PrimFloat.eqb v (value c))
                (sorted_reverse value positive)
              = filter (fun c => PrimFloat.eqb v (value c)) positive)) /\
  (rank_expenses cats = firstn 5 (sorted_reverse magnitude negative) /\
   Permutation (sorted_reverse magnitude negative) negative /\
   StronglySorted (descending magnitude) (sorted_reverse magnitude negative) /\
   (forall v, filter (fun c => PrimFloat.eqb v (magnitude c))
                (sorted_reverse magnitude negative)
              = filter (fun c => PrimFloat.eqb v (magnitude c)) negative)) /\
  (List.length (rank_income cats) <= 5)%nat /\
  (List.length (rank_expenses cats) <= 5)%nat /\
  (forall c, PrimFloat.eqb (value c) 0 = true \/ is_number (value c) = false ->
             ~ In c (rank_income cats) /\ ~ In c (rank_expenses cats)).
Proof.
  intros positive negative magnitude.
  split; [|split; [|split; [|split]]].
  - split; [apply rank_income_eq|]. split; [apply sorted_reverse_perm|].
    split; [|intros v; apply sorted_reverse_stable].
    apply sorted_reverse_sorted, Forall_forall. intros c Hc.
    apply filter_In in Hc. apply positive_is_number, Hc.
  - split; [apply rank_expenses_eq|]. split; [apply sorted_reverse_perm|].
    split; [|intros v; apply (sorted_reverse_stable magnitude)].
    apply sorted_reverse_sorted, Forall_forall. intros c Hc.
    apply filter_In in Hc. apply negative_abs_is_number, Hc.
  - rewrite rank_income_eq. apply firstn_le_length.
  - rewrite rank_expenses_eq. apply firstn_le_length.
  - intros c Hc.
    assert (Hout : PrimFloat.ltb 0 (value c) = false /\
                   PrimFloat.ltb (value c) 0 = false)
      by (destruct Hc; [apply zero_not_ranked|apply nan_not_ranked]; assumption).
    destruct Hout as [Hp Hn].
    rewrite rank_income_eq, rank_expenses_eq. split; intros Hin;
      apply In_firstn in Hin;
      apply (Permutation_in _ (sorted_reverse_perm _ _)) in Hin;
      apply filter_In in Hin; destruct Hin as [_ Hin]; congruence.
Qed.

(** * Closed instances

    The code run on concrete inputs, in the environment [no_literal],
    [opaque_str]. *)

(** The statement of the basic test: totals as given, one income, and the
    two expenses by magnitude. *)
Example summary_of_basic_statement :
  _summarize_income_statement no_literal opaque_str example_limit
    (JObj [("totals", JObj [("income", JFloat 10000);
                            ("expenses", JFloat (-7500));
                            ("net", JFloat 2500)]);
           ("children",
            JArr [JObj [("name", JStr "Salary"); ("balance", JFloat 10000)];
                  JObj [("name", JStr "Rent"); ("balance", JFloat (-2000))];
                  JObj [("name", JStr "Food"); ("balance", JFloat (-1500))]])])
  = Returns
      {| notes := reading_tips;
         totals := {| income := Some 10000%float;
                      expenses := Some (-7500)%float;
                      net_profit := Some 2500%float |};
         top_income := [ {| name := "Salary"; value := 10000 |} ];
         top_expenses := [ {| name := "Rent"; value := (-2000) |};
                           {| name := "Food"; value := (-1500) |} ] |}.
Proof. reflexivity. Qed.

(** ** The claims that fail on the code, at concrete inputs *)

(** C1 as stated fails: a JSON value that is not an object, here the empty
    list, makes the summariser raise, [data.get] being no attribute of a
    list; an object nested deeper than the interpreter lets the walk nest
    its calls makes it raise [RecursionError]; and a dict with none of the
    keys totals, income, expenses and net_profit still yields a net profit
    and a ranked list. *)
Lemma summarize_non_dict_raises :
  _summarize_income_statement no_literal opaque_str example_limit (JArr [])
  = Raises AttributeError /\
  _summarize_income_statement no_literal opaque_str example_limit
    (JObj [("children", deep_children example_limit)])
  = Raises RecursionError /\
  (let d := [("net", JInt 5);
             ("children",
              JArr [JObj [("name", JStr "A"); ("balance", JInt 1)]])] in
   dict_has "totals" d = false /\ dict_has "income" d = false /\
   dict_has "expenses" d = false /\ dict_has "net_profit" d = false /\
   net_profit (totals (summarize_dict no_literal opaque_str d)) = Some 5%float /\
   top_income (summarize_dict no_literal opaque_str d)
   = [ {| name := "A"; value := 1 |} ]).
Proof.
  split; [reflexivity|]. split; [vm_compute; reflexivity|].
  repeat split; reflexivity.
Qed.

(** C2 as stated fails: with balance present and zero the value comes from
    amount, and with name present and empty the name comes from label. *)
Lemma later_key_supplies_entry :
  (let node := [("name", JStr "A"); ("balance", JInt 0); ("amount", JInt 5)] in
   dict_has "balance" node = true /\
   _num no_literal (dict_get "balance" node) = Some 0%float /\
   collect_categories no_literal opaque_str (JObj node) []
   = [ {| name := "A"; value := 5 |} ]) /\
  (let node := [("name", JStr ""); ("label", JStr "Rent"); ("balance", JInt 1)] in
   dict_has "name" node = true /\
   is_None (dict_get "name" node) = false /\
   collect_categories no_literal opaque_str (JObj node) []
   = [ {| name := "Rent"; value := 1 |} ]).
Proof. repeat split; reflexivity. Qed.

(** C3 as stated fails: a zero under net_profit gives way to net, and a zero
    under totals.net gives way to totals.profit; a zero net_profit alone
    leaves the net profit unknown. *)
Lemma net_zero_falls_through :
  net_profit (derive_totals no_literal [("net_profit", JInt 0); ("net", JInt 500)])
  = Some 500%float /\
  net_profit (derive_totals no_literal
                [("totals", JObj [("net", JInt 0); ("profit", JInt 7)])])
  = Some 7%float /\
  net_profit (derive_totals no_literal [("net_profit", JInt 0)]) = None.
Proof. repeat split; reflexivity. Qed.

(** C10 as stated fails: a node whose only field is a balance of [True]
    has no name, so no entry is recorded for it, which a name under any of
    the four name keys changes. *)
Lemma unnamed_bool_node_not_recorded :
  _num no_literal (JBool true) = Some 1%float /\
  collect_categories no_literal opaque_str (JObj [("balance", JBool true)]) []
  = [] /\
  collect_categories no_literal opaque_str
    (JObj [("title", JStr "Flag"); ("balance", JBool true)]) []
  = [ {| name := "Flag"; value := 1 |} ].
Proof. repeat split; reflexivity. Qed.

(** C4 as stated fails: with children present and an empty list, the walk
    goes into accounts. *)
Lemma later_key_supplies_children :
  let node := [("children", JArr []);
               ("accounts",
                JArr [JObj [("name", JStr "A"); ("balance", JInt 1)]])] in
  dict_has "children" node = true /\
  dict_get "children" node = JArr [] /\
  collect_categories no_literal opaque_str (JObj node) []
  = [ {| name := "A"; value := 1 |} ].
Proof. repeat split; reflexivity. Qed.

(** ** The theorems at concrete inputs *)

(** C8 at the int 3, the float it gives, and a string that is no literal. *)
Lemma num_total_idempotent_witness :
  _num no_literal (JInt 3) = Some 3%float /\
  _num no_literal (JFloat 3) = Some 3%float /\
  _num no_literal (JStr "abc") = None.
Proof.
  destruct (num_total_idempotent no_literal (JInt 3)) as (H1 & _ & H3 & _).
  destruct (num_total_idempotent no_literal (JStr "abc")) as (_ & H2 & _).
  split; [exact (H1 3%float eq_refl)|].
  split; [exact (H3 3%float eq_refl)|exact (H2 ValueError eq_refl)].
Defined.

(** C10 at the node [{"name": "Flag", "balance": True}]. *)
Lemma num_bool_recorded_witness :
  let node := [("name", JStr "Flag"); ("balance", JBool true)] in
  let entry := {| name := "Flag"; value := 1 |} in
  record_entry no_literal opaque_str node [] = [entry] /\
  rank_income [entry] = [entry].
Proof.
  intros node entry.
  destruct (num_bool_recorded no_literal opaque_str) as (_ & _ & H).
  destruct (H node "balance" []) as (Hrec & _ & _ & Hrank).
  - simpl. tauto.
  - reflexivity.
  - intros k' [<-|[<-|[<-|[<-|[]]]]] Hne; try reflexivity.
    exfalso. apply Hne. reflexivity.
  - reflexivity.
  - split; [exact Hrec|exact Hrank].
Defined.

(** C6 at an upstream answering 500, at one that cannot be reached, and at
    one answering 200 with an empty object. *)
Lemma fetch_failures_classified_witness :
  _http_get_income_statement example_api
    (upstream_answer 500 (Returns JNull)) []
  = Raises (HTTPException 500 "Fava returned 500") /\
  explain_income_statement no_literal opaque_str example_limit example_api
    (upstream_answer 500 (Returns JNull)) None None None None true
  = Raises (HTTPException 500 "Fava returned 500") /\
  explain_income_statement no_literal opaque_str example_limit example_api
    (upstream_down "Connection failed") None None None None true
  = Raises (HTTPException 502 "Failed to reach Fava: Connection failed") /\
  _http_get_income_statement example_api
    (upstream_answer 200 (Returns (JObj []))) []
  = Returns (JObj []).
Proof.
  destruct (fetch_failures_classified no_literal opaque_str example_limit example_api
              (upstream_answer 500 (Returns JNull)) None None None None true)
    as (Hstatus & _).
  destruct (fetch_failures_classified no_literal opaque_str example_limit example_api
              (upstream_down "Connection failed") None None None None true)
    as (_ & Hdown & _).
  destruct (fetch_failures_classified no_literal opaque_str example_limit example_api
              (upstream_answer 200 (Returns (JObj []))) None None None None true)
    as (_ & _ & Hok & _).
  destruct (Hstatus _ eq_refl) as [Hf He]; [discriminate|].
  destruct (Hdown "Connection failed" eq_refl) as [_ Hd].
  split; [exact Hf|]. split; [exact He|]. split; [exact Hd|].
  exact (Hok _ (JObj []) eq_refl eq_refl eq_refl).
Defined.

(** C9 at an upstream answering 200 with [{"income": 1}], with [return_raw]
    left out and with [return_raw=false]. *)
Lemma raw_key_iff_return_raw_witness :
  let up := upstream_answer 200 (Returns (JObj [("income", JInt 1)])) in
  (exists result,
      income_statement_route no_literal opaque_str example_limit example_api up
        None None None None None = Returns result /\
      result_get "raw" result = Some (VJson (JObj [("income", JInt 1)]))) /\
  (exists result,
      income_statement_route no_literal opaque_str example_limit example_api up
        None None None None (Some false) = Returns result /\
      result_get "raw" result = None).
Proof.
  intros up. split; eexists; (split; [reflexivity|]).
  - destruct (raw_key_iff_return_raw no_literal opaque_str example_limit example_api up
                None None None None None _ eq_refl)
      as (data & summary & Hf & _ & _ & _ & Hraw).
    injection Hf as <-. apply Hraw. discriminate.
  - destruct (raw_key_iff_return_raw no_literal opaque_str example_limit example_api up
                None None None None (Some false) _ eq_refl)
      as (data & summary & _ & _ & _ & Hiff & _).
    destruct (result_get "raw" _) eqn:E; [|reflexivity].
    exfalso. apply (proj1 Hiff); [discriminate|reflexivity].
Defined.

(** C1, as amended, at the empty object and at an object of unexpected
    fields, both nested less deep than the limit. *)
Lemma summarize_dict_total_witness :
  let empty_totals :=
    {| income := None; expenses := None; net_profit := None |} in
  let odd :=
    [("some_unexpected_field", JStr "value");
     ("nested", JObj [("complex", JObj [("structure", JStr "other")])])] in
  _summarize_income_statement no_literal opaque_str example_limit (JObj [])
  = Returns {| notes := reading_tips; totals := empty_totals;
               top_income := []; top_expenses := [] |} /\
  _summarize_income_statement no_literal opaque_str example_limit (JObj odd)
  = Returns (summarize_dict no_literal opaque_str odd) /\
  totals (summarize_dict no_literal opaque_str odd) = empty_totals /\
  top_income (summarize_dict no_literal opaque_str odd) = [] /\
  top_expenses (summarize_dict no_literal opaque_str odd) = [].
Proof.
  intros empty_totals odd.
  destruct (summarize_dict_total no_literal opaque_str example_limit [])
    as (Hret & _).
  destruct (summarize_dict_total no_literal opaque_str example_limit odd)
    as (Hodd & _ & _ & Ht & Hl).
  split; [apply Hret; unfold example_limit; simpl; lia|].
  split; [apply Hodd; unfold example_limit; simpl; lia|].
  split; [apply Ht|apply Hl];
    intros k Hk; simpl in Hk;
    repeat (destruct Hk as [<-|Hk]; [reflexivity|]); destruct Hk.
Defined.


(** C2, as amended, at a node whose name is under label and whose value is
    under amount, with a later total; and at a node where no name key holds
    a true value, so that the empty title is the name. *)
Lemma entry_from_first_truthy_keys_witness :
  record_entry no_literal opaque_str
    [("label", JStr "Rent"); ("amount", JInt (-2000)); ("total", JInt 7)] []
  = [ {| name := "Rent"; value := (-2000)%float |} ] /\
  record_entry no_literal opaque_str
    [("title", JStr ""); ("balance", JInt 1)] []
  = [ {| name := ""; value := 1%float |} ].
Proof.
  split.
  - destruct (entry_from_first_truthy_keys no_literal opaque_str
                [("label", JStr "Rent"); ("amount", JInt (-2000));
                 ("total", JInt 7)] []) as (_ & _ & H & _).
    apply (H "label" "amount").
    + exists ["name"], ["account"; "title"].
      split; [reflexivity|]. split; [|reflexivity].
      constructor; [reflexivity|constructor].
    + exists ["balance"], ["value"; "total"].
      split; [reflexivity|]. split; [|reflexivity].
      constructor; [reflexivity|constructor].
  - destruct (entry_from_first_truthy_keys no_literal opaque_str
                [("title", JStr ""); ("balance", JInt 1)] [])
      as (_ & _ & _ & _ & _ & H & _).
    apply (H "title" "balance").
    + right. split; [repeat constructor|reflexivity].
    + left. exists [], ["amount"; "value"; "total"].
      split; [reflexivity|]. split; [constructor|reflexivity].
Defined.

(** C4, as amended, at a node with an empty children list and one account. *)
Lemma recursion_into_first_truthy_child_witness :
  collect_categories no_literal opaque_str
    (JObj [("children", JArr []);
           ("accounts", JArr [JObj [("name", JStr "A"); ("balance", JInt 1)]])])
    []
  = [ {| name := "A"; value := 1 |} ].
Proof.
  destruct (recursion_into_first_truthy_child no_literal opaque_str
              [("children", JArr []);
               ("accounts",
                JArr [JObj [("name", JStr "A"); ("balance", JInt 1)]])] [])
    as (H & _).
  rewrite (H "accounts"); [reflexivity|].
  exists ["children"], ["items"].
  split; [reflexivity|]. split; [|reflexivity].
  constructor; [reflexivity|constructor].
Defined.

(** C7 at seven entries of positive value, a tie among them, an entry of
    value zero and two of negative value. *)
Lemma ranking_sorted_top5_witness :
  let e := fun (n : string) (v : float) => {| name := n; value := v |} in
  let cats :=
    [e "a" 3; e "b" 7; e "zero" 0; e "c" 1; e "d" 7; e "x" (-2); e "e" 9;
     e "f" 2; e "y" (-5); e "g" 4]%float in
  rank_income cats = [e "e" 9; e "b" 7; e "d" 7; e "g" 4; e "a" 3]%float /\
  rank_expenses cats = [e "y" (-5); e "x" (-2)]%float /\
  ~ In (e "zero" 0%float) (rank_income cats) /\
  ~ In (e "zero" 0%float) (rank_expenses cats).
Proof.
  intros e cats.
  destruct (ranking_sorted_top5 cats) as ((Hinc & _) & (Hexp & _) & _ & _ & Hz).
  split; [rewrite Hinc; reflexivity|].
  split; [rewrite Hexp; reflexivity|].
  apply (Hz (e "zero" 0%float)). left. reflexivity.
Defined.

(** C3, as amended, at totals [{"net": 0, "profit": 7}], at the top-level
    [{"net_profit": 0, "net": 500}], at a zero under the last key, and at a
    totals net that is no number beside a top-level net. *)
Lemma net_from_first_truthy_key_witness :
  net_profit (derive_totals no_literal
                [("totals", JObj [("net", JInt 0); ("profit", JInt 7)])])
  = Some 7%float /\
  net_profit (derive_totals no_literal [("net_profit", JInt 0); ("net", JInt 500)])
  = Some 500%float /\
  net_profit (derive_totals no_literal [("profit", JInt 0)]) = Some 0%float /\
  net_profit (derive_totals no_literal
                [("totals", JObj [("net", JStr "abc"); ("profit", JInt 7)]);
                 ("net", JInt 5)])
  = Some 5%float.
Proof.
  split; [|split; [|split]].
  - apply (proj1 (net_from_first_truthy_key no_literal _)
             [("net", JInt 0); ("profit", JInt 7)] "profit");
      [reflexivity| |reflexivity].
    left. exists ["net"], ["net_profit"].
    split; [reflexivity|]. split; [|reflexivity].
    constructor; [reflexivity|constructor].
  - apply (proj1 (proj2 (net_from_first_truthy_key no_literal _)) "net");
      [intros t k' Ht; discriminate Ht| |reflexivity].
    left. exists ["net_profit"], ["profit"].
    split; [reflexivity|]. split; [|reflexivity].
    constructor; [reflexivity|constructor].
  - apply (proj1 (proj2 (net_from_first_truthy_key no_literal _)) "profit");
      [intros t k' Ht; discriminate Ht| |reflexivity].
    right. split; [repeat constructor|reflexivity].
  - apply (proj1 (proj2 (net_from_first_truthy_key no_literal
             [("totals", JObj [("net", JStr "abc"); ("profit", JInt 7)]);
              ("net", JInt 5)])) "net"); [| |reflexivity].
    + intros t k' [= <-] [(pre & post & Heq & Hpre & Ht)|[Hall _]].
      * destruct pre as [|p pre]; [injection Heq as <- _; reflexivity|].
        injection Heq as <- _. inversion Hpre as [|? ? Hp _]. discriminate Hp.
      * inversion Hall as [|? ? Hp _]. discriminate Hp.
    + left. exists ["net_profit"], ["profit"].
      split; [reflexivity|]. split; [|reflexivity].
      constructor; [reflexivity|constructor].
Defined.

(** * Further properties of the code *)

(** ** The configured endpoint *)

Lemma rstrip_slash_slashes (n : nat) : rstrip_slash (slashes n) = EmptyString.
Proof. induction n as [|n IH]; simpl; [reflexivity|]. now rewrite IH. Qed.

Lemma rstrip_slash_app_slashes (s : string) (n : nat) :
  rstrip_slash (s ++ slashes n)%string = rstrip_slash s.
Proof.
  induction s as [|c s IH]; simpl; [apply rstrip_slash_slashes|].
  now rewrite IH.
Qed.

Lemma rstrip_slash_no_trailing (s : string) :
  ends_in_slash (rstrip_slash s) = false.
Proof.
  induction s as [|c s IH]; simpl; [reflexivity|].
  destruct (rstrip_slash s) as [|a r].
  - destruct (Ascii.eqb c "/") eqn:E; simpl; [reflexivity|exact E].
  - exact IH.
Qed.

Lemma rstrip_slash_fixed (s : string) :
  ends_in_slash s = false -> rstrip_slash s = s.
Proof.
  induction s as [|c s IH]; [reflexivity|].
  destruct s as [|a s'].
  - simpl. intros ->. reflexivity.
  - intros H. change (ends_in_slash (String a s') = false) in H.
    change (rstrip_slash (String c (String a s')))
      with (match rstrip_slash (String a s') with
            | EmptyString =>
                if Ascii.eqb c "/" then EmptyString else String c EmptyString
            | r => String c r
            end).
    rewrite (IH H). reflexivity.
Qed.

Lemma rstrip_slash_decompose (s : string) :
  exists n, s = (rstrip_slash s ++ slashes n)%string.
Proof.
  induction s as [|c s [n IH]]; [exists 0%nat; reflexivity|].
  simpl. destruct (rstrip_slash s) as [|a r].
  - destruct (Ascii.eqb_spec c "/") as [->|Hc].
    + exists (S n). simpl in *. now rewrite <- IH.
    + exists n. simpl in *. now rewrite <- IH.
  - exists n. simpl in *. now rewrite <- IH.
Qed.

(** X1.  The endpoint does not depend on the slashes the base URL ends in:
    the part before the ledger slug is the base URL without them, it never
    ends in a slash, and a base URL that ends in none is used as it is. *)
Theorem income_api_trailing_slashes (base slug : string) (n : nat) :
  income_api (base ++ slashes n)%string slug = income_api base slug /\
  (exists stem k,
      base = (stem ++ slashes k)%string /\ ends_in_slash stem = false /\
      income_api base slug
      = (stem ++ "/" ++ slug ++ "/api/income_statement")%string) /\
  (ends_in_slash base = false ->
   income_api base slug
   = (base ++ "/" ++ slug ++ "/api/income_statement")%string).
Proof.
  unfold income_api. split; [|split].
  - now rewrite rstrip_slash_app_slashes.
  - destruct (rstrip_slash_decompose base) as [k Hk].
    exists (rstrip_slash base), k.
    split; [exact Hk|]. split; [apply rstrip_slash_no_trailing|reflexivity].
  - intros H. now rewrite (rstrip_slash_fixed base H).
Qed.

(** X1 at the defaults, and at a base URL given with two slashes. *)
Lemma income_api_trailing_slashes_witness :
  configured_income_api empty_env = example_api /\
  configured_income_api
    (fun name => if String.eqb name "FAVA_BASE_URL"
                 then Some "http://fava.example:5000//" else None)
  = "http://fava.example:5000/example-beancount-file/api/income_statement".
Proof.
  split.
  - exact (proj2 (proj2 (income_api_trailing_slashes
                           "http://127.0.0.1:5000" "example-beancount-file" 0))
             eq_refl).
  - exact (proj1 (income_api_trailing_slashes
                    "http://fava.example:5000" "example-beancount-file" 2)).
Defined.

(** ** The query of the upstream call *)

(** X2.  The query holds a parameter exactly when the route was given it
    with a value that is not empty, under its own name and with that value;
    no value sent is empty and no name is sent twice. *)
Theorem query_params_sent (time interval conversion filter : option string) :
  let params := query_params time interval conversion filter in
  (forall k v,
      In (k, v) params <->
      v <> "" /\
      ((k = "time" /\ time = Some v) \/ (k = "interval" /\ interval = Some v) \/
       (k = "conversion" /\ conversion = Some v) \/
       (k = "filter" /\ filter = Some v))) /\
  NoDup (map fst params).
Proof.
  unfold query_params, add_param.
  destruct time as [t|]; [destruct (String.eqb_spec t "")|];
    (destruct interval as [i|]; [destruct (String.eqb_spec i "")|]);
    (destruct conversion as [c|]; [destruct (String.eqb_spec c "")|]);
    (destruct filter as [f|]; [destruct (String.eqb_spec f "")|]);
    subst; simpl; (split; [intros k v; split|]);
    try (intros H; repeat (destruct H as [[= <- <-]|H]; [now auto 10|]);
         now destruct H);
    try (intros (Hv & [[-> [= <-]]|[[-> [= <-]]|[[-> [= <-]]|[-> [= <-]]]]]);
         now (try congruence; auto 10));
    try (intros (Hv & [[_ [=]]|[[_ [=]]|[[_ [=]]|[_ [=]]]]]));
    repeat constructor; simpl; intuition discriminate.
Qed.

(** ** More on the fetcher and the route *)

Lemma string_app_inv_head (p a b : string) :
  (p ++ a)%string = (p ++ b)%string -> a = b.
Proof. induction p as [|c p IH]; simpl; [tauto|]. intros [= H]. auto. Qed.

Section FetchAndRoute.

Variable float_of_str : string -> option float.
Variable str_of_value : json -> string.
Variable recursion_limit : nat.
Variable FAVA_INCOME_API : string.
Variable requests_get :
  string -> list (string * string) -> Z -> outcome Response.

Local Abbreviation fetch :=
  (_http_get_income_statement FAVA_INCOME_API requests_get).
Local Abbreviation explain :=
  (explain_income_statement float_of_str str_of_value recursion_limit
     FAVA_INCOME_API requests_get).
Local Abbreviation summarize :=
  (_summarize_income_statement float_of_str str_of_value recursion_limit).
Local Abbreviation summary_of := (summarize_dict float_of_str str_of_value).

(** X3.  The fetch never lets a [RequestException] out: whatever the call
    and the decoding of the body do, what it raises is something else. *)
Theorem fetch_never_raises_request_exception
    (params : list (string * string)) (cause : string) :
  _http_get_income_statement FAVA_INCOME_API requests_get params
  <> Raises (RequestException cause).
Proof.
  unfold _http_get_income_statement.
  destruct (requests_get FAVA_INCOME_API params 15) as [resp|[]]; simpl;
    try discriminate.
  destruct (negb (resp_status_code resp =? 200)%Z); [discriminate|].
  destruct (resp_json resp) as [j|[]]; discriminate.
Qed.

(** X4.  With status 200, a body whose decoding raises a
    [RequestException] is reported as the 502 failure with the text of that
    exception, and any other exception of the decoding, or of the call
    itself, leaves the fetch as it was raised. *)
Theorem fetch_decoding_failure (params : list (string * string)) :
  let upstream := requests_get FAVA_INCOME_API params 15 in
  (forall resp cause,
      upstream = Returns resp -> resp_status_code resp = 200%Z ->
      resp_json resp = Raises (RequestException cause) ->
      _http_get_income_statement FAVA_INCOME_API requests_get params
      = Raises (HTTPException 502 ("Failed to reach Fava: " ++ cause))) /\
  (forall resp e,
      upstream = Returns resp -> resp_status_code resp = 200%Z ->
      resp_json resp = Raises e ->
      (forall cause, e <> RequestException cause) ->
      _http_get_income_statement FAVA_INCOME_API requests_get params = Raises e) /\
  (forall e,
      upstream = Raises e ->
      (forall cause, e <> RequestException cause) ->
      _http_get_income_statement FAVA_INCOME_API requests_get params = Raises e).
Proof.
  intros upstream. unfold _http_get_income_statement. fold upstream.
  split; [|split].
  - intros resp cause -> Hs Hj. simpl. rewrite Hs, Hj. reflexivity.
  - intros resp e -> Hs Hj Hne. simpl. rewrite Hs, Hj. simpl.
    destruct e; try reflexivity. now destruct (Hne cause).
  - intros e -> Hne. simpl. destruct e; try reflexivity.
    now destruct (Hne cause).
Qed.

(** X5.  The detail of the status failure names the status: the decimal
    text after "Fava returned " reads back as the status, so two statuses
    never give the same detail. *)
Theorem status_detail_names_status (s1 s2 : Z) :
  option_map Z.of_int (NilZero.int_of_string (str_of_int s1)) = Some s1 /\
  (("Fava returned " ++ str_of_int s1)%string
   = ("Fava returned " ++ str_of_int s2)%string -> s1 = s2).
Proof.
  assert (Hread : forall s,
             option_map Z.of_int (NilZero.int_of_string (str_of_int s)) = Some s).
  { intros s. unfold str_of_int.
    rewrite NilZero.isi.
    - simpl. now rewrite DecimalZ.of_to.
    - destruct s; simpl; try discriminate.
      intros [= H]. revert H. apply DecimalPos.Unsigned.to_uint_nonnil.
    - destruct s; simpl; try discriminate.
      intros [= H]. revert H. apply DecimalPos.Unsigned.to_uint_nonnil. }
  split; [apply Hread|].
  intros H. apply string_app_inv_head in H.
  pose proof (Hread s1) as H1. rewrite H, Hread in H1. congruence.
Qed.

(** X6.  The route returns exactly when the upstream answers 200 with a
    body that decodes to an object on which the summariser returns; its
    result then holds the endpoint under source, the summary of that object
    under summary and, when [return_raw] is set, the object under raw, in
    this order and nothing else.  The summariser returns on every object
    nested less deep than the interpreter's recursion limit allows. *)
Theorem route_returns_iff
    (time interval conversion filter : option string) (return_raw : bool)
    (result : result_dict) :
  let upstream :=
    requests_get FAVA_INCOME_API
      (query_params time interval conversion filter) 15 in
  let result_of d :=
    [("source", VStr FAVA_INCOME_API); ("summary", VSummary (summary_of d))]
    ++ (if return_raw then [("raw", VJson (JObj d))] else []) in
  (explain time interval conversion filter return_raw = Returns result <->
   exists resp d,
     upstream = Returns resp /\
     resp_status_code resp = 200%Z /\
     resp_json resp = Returns (JObj d) /\
     summarize (JObj d) = Returns (summary_of d) /\
     result = result_of d) /\
  (forall resp d,
      upstream = Returns resp ->
      resp_status_code resp = 200%Z ->
      resp_json resp = Returns (JObj d) ->
      (json_depth (JObj d) < recursion_limit)%nat ->
      explain time interval conversion filter return_raw
      = Returns (result_of d)).
Proof.
  intros upstream result_of. subst upstream.
  unfold explain_income_statement, _http_get_income_statement.
  split; [split|].
  - destruct (requests_get _ _ _) as [resp|[]] eqn:Hup;
      cbn [bind]; try discriminate.
    destruct (Z.eqb_spec (resp_status_code resp) 200) as [Hs|Hs];
      cbn [negb bind]; [|discriminate].
    destruct (resp_json resp) as [j|[]] eqn:Hj; cbn [bind];
      try discriminate.
    destruct (summarize j) as [s|e] eqn:Es; cbn [bind]; [|discriminate].
    destruct j as [| | | | | |d]; try discriminate Es.
    intros [= <-]. exists resp, d.
    pose proof (summarize_returns _ _ _ d s Es) as ->.
    repeat split; try assumption. unfold result_of. now destruct return_raw.
  - intros (resp & d & -> & Hs & Hj & Hsum & ->). cbn [bind].
    rewrite Hs, Hj. cbn [Z.eqb Pos.eqb negb bind]. rewrite Hsum. cbn [bind].
    unfold result_of. now destruct return_raw.
  - intros resp d -> Hs Hj Hd. cbn [bind].
    rewrite Hs, Hj. cbn [Z.eqb Pos.eqb negb bind].
    rewrite (summarize_enough _ _ _ d Hd). cbn [bind].
    unfold result_of. now destruct return_raw.
Qed.

(** X7.  What the route raises is what the fetch raised, or, after a fetch
    that returned a value which is no object, the [AttributeError] of the
    summariser, or, after a fetch that returned an object nested at least as
    deep as the interpreter's recursion limit allows, its [RecursionError];
    the last two are none of the two classified failures. *)
Theorem route_raises_cases
    (time interval conversion filter : option string) (return_raw : bool)
    (e : exn) :
  explain time interval conversion filter return_raw = Raises e ->
  fetch (query_params time interval conversion filter) = Raises e \/
  (e = AttributeError /\
   exists data,
     fetch (query_params time interval conversion filter) = Returns data /\
     forall d, data <> JObj d) \/
  (e = RecursionError /\
   exists d,
     fetch (query_params time interval conversion filter) = Returns (JObj d) /\
     (recursion_limit <= json_depth (JObj d))%nat).
Proof.
  unfold explain_income_statement.
  destruct (fetch (query_params time interval conversion filter))
    as [data|e']; simpl.
  - destruct (summarize data) as [s|e'] eqn:Es; simpl; [discriminate|].
    intros [= <-]. right.
    destruct data as [| | | | | |d].
    7: { right. destruct (summarize_raises _ _ _ d e' Es) as [-> Hd].
         split; [reflexivity|]. now exists d. }
    all: left; simpl in Es; injection Es as <-; (split; [reflexivity|]);
      eexists; (split; [reflexivity|]); discriminate.
  - intros [= <-]. now left.
Qed.

End FetchAndRoute.

(** ** More on the totals *)

Lemma dict_get_other (k k' : string) (v : json) (d1 d2 : dict) :
  k' <> k -> dict_get k' (d1 ++ (k, v) :: d2) = dict_get k' (d1 ++ d2).
Proof.
  intros Hne. induction d1 as [|[k1 v1] d1 IH]; simpl.
  - destruct (String.eqb_spec k' k); [contradiction|reflexivity].
  - now rewrite IH.
Qed.

Lemma dict_has_other (k k' : string) (v : json) (d1 d2 : dict) :
  k' <> k -> dict_has k' (d1 ++ (k, v) :: d2) = dict_has k' (d1 ++ d2).
Proof.
  intros Hne. induction d1 as [|[k1 v1] d1 IH]; simpl.
  - destruct (String.eqb_spec k' k); [contradiction|reflexivity].
  - now rewrite IH.
Qed.

Section TotalsMore.

Variable float_of_str : string -> option float.
Variable str_of_value : json -> string.

Local Abbreviation num := (_num float_of_str).
Local Abbreviation totals_of := (derive_totals float_of_str).
Local Abbreviation record := (record_entry float_of_str str_of_value).
Local Abbreviation collect := (collect_categories float_of_str str_of_value).
Local Abbreviation collect_fuel :=
  (collect_categories_fuel float_of_str str_of_value).
Local Abbreviation all_cats := (collect_all float_of_str str_of_value).
Local Abbreviation summary_of := (summarize_dict float_of_str str_of_value).

(** X8.  Whenever the summary gives an income and an expenses total it
    gives a net profit too. *)
Theorem net_known_when_income_and_expenses (data : dict) :
  income (totals_of data) <> None ->
  expenses (totals_of data) <> None ->
  net_profit (totals_of data) <> None.
Proof.
  unfold derive_totals.
  destruct (dict_get "totals" data) as [| | | | | |t]; cbn beta iota zeta.
  7: destruct (num (py_or (py_or (dict_get "net" t) (dict_get "profit" t))
                          (dict_get "net_profit" t))),
       (num (dict_get "income" t)), (num (dict_get "expenses" t)).
  all: destruct (num (py_or (py_or (dict_get "net_profit" data)
                                   (dict_get "net" data))
                            (dict_get "profit" data))),
         (num (dict_get "income" data)), (num (dict_get "expenses" data));
    simpl; congruence.
Qed.

(** X9.  An income that coerces under totals is the income of the summary,
    zero included, whatever the top level holds; when totals is no dict or
    its income does not coerce, the income is the coercion of the top-level
    income.  The same holds of expenses. *)
Theorem totals_take_precedence (data : dict) :
  (forall t v, dict_get "totals" data = JObj t ->
               num (dict_get "income" t) = Some v ->
               income (totals_of data) = Some v) /\
  (forall t v, dict_get "totals" data = JObj t ->
               num (dict_get "expenses" t) = Some v ->
               expenses (totals_of data) = Some v) /\
  ((forall t, dict_get "totals" data = JObj t ->
              num (dict_get "income" t) = None) ->
   income (totals_of data) = num (dict_get "income" data)) /\
  ((forall t, dict_get "totals" data = JObj t ->
              num (dict_get "expenses" t) = None) ->
   expenses (totals_of data) = num (dict_get "expenses" data)).
Proof.
  unfold derive_totals. repeat split.
  - intros t v -> ->. cbn beta iota zeta. reflexivity.
  - intros t v -> ->. cbn beta iota zeta. reflexivity.
  - intros H. destruct (dict_get "totals" data) as [| | | | | |t];
      cbn beta iota zeta; try reflexivity.
    rewrite (H t eq_refl). reflexivity.
  - intros H. destruct (dict_get "totals" data) as [| | | | | |t];
      cbn beta iota zeta; try reflexivity.
    rewrite (H t eq_refl). reflexivity.
Qed.

(** X10.  A top-level key that is none of the eleven the summariser reads
    changes nothing: the summary of a statement with such a key, wherever it
    stands, is the summary of the statement without it. *)
Theorem unread_top_level_key_ignored
    (k : string) (v : json) (d1 d2 : dict) :
  ~ In k top_keys ->
  summary_of (d1 ++ (k, v) :: d2) = summary_of (d1 ++ d2).
Proof.
  intros Hk.
  assert (Hget : forall k', In k' top_keys ->
            dict_get k' (d1 ++ (k, v) :: d2) = dict_get k' (d1 ++ d2)).
  { intros k' Hk'. apply dict_get_other. intros ->. contradiction. }
  assert (Hhas : forall k', In k' top_keys ->
            dict_has k' (d1 ++ (k, v) :: d2) = dict_has k' (d1 ++ d2)).
  { intros k' Hk'. apply dict_has_other. intros ->. contradiction. }
  unfold summarize_dict, derive_totals, collect_all. cbn [fold_left].
  rewrite !Hget by (simpl; tauto). rewrite !Hhas by (simpl; tauto).
  reflexivity.
Qed.

End TotalsMore.

(** ** More on the walk *)

Section WalkerMore.

Variable float_of_str : string -> option float.
Variable str_of_value : json -> string.

Local Abbreviation record := (record_entry float_of_str str_of_value).
Local Abbreviation collect := (collect_categories float_of_str str_of_value).
Local Abbreviation collect_fuel :=
  (collect_categories_fuel float_of_str str_of_value).
Local Abbreviation all_cats := (collect_all float_of_str str_of_value).

Lemma fold_collect_flat_map (l : list json) (cats : list CategoryEntry) :
  fold_left (fun acc c => collect c acc) l cats
  = cats ++ flat_map (fun c => collect c []) l.
Proof.
  revert cats. induction l as [|c l IH]; intros cats; simpl.
  - now rewrite app_nil_r.
  - rewrite IH, (collect_categories_app _ _ c cats). now rewrite app_assoc.
Qed.

(** X11.  A key of a node that is none of the eleven the walk reads changes
    nothing: the walk of a node with such a key, wherever it stands, and of
    whatever lies under it, collects what the walk of the node without it
    collects. *)
Theorem unread_node_key_ignored
    (k : string) (v : json) (d1 d2 : dict) (cats : list CategoryEntry) :
  ~ In k node_keys ->
  collect (JObj (d1 ++ (k, v) :: d2)) cats = collect (JObj (d1 ++ d2)) cats.
Proof.
  intros Hk.
  assert (Hget : forall k', In k' node_keys ->
            dict_get k' (d1 ++ (k, v) :: d2) = dict_get k' (d1 ++ d2)).
  { intros k' Hk'. apply dict_get_other. intros ->. contradiction. }
  rewrite !collect_categories_dict.
  unfold record_entry, node_name, node_val, node_ch.
  rewrite !Hget by (simpl; tauto). reflexivity.
Qed.

(** X12.  The walk only appends: what was collected before stays in front,
    unchanged, and what a walk adds does not depend on it.  At a dict the
    node's own entry comes first, then the entries of the child collection,
    element by element for a list. *)
Theorem walk_appends_in_preorder (node : json) (cats : list CategoryEntry) :
  collect node cats = cats ++ collect node [] /\
  (forall d,
      node = JObj d ->
      collect node []
      = record d [] ++
        match node_ch d with
        | JArr l => flat_map (fun c => collect c []) l
        | JObj ch => collect (JObj ch) []
        | _ => []
        end).
Proof.
  split; [apply collect_categories_app|].
  intros d ->. rewrite collect_categories_dict.
  destruct (node_ch d) as [| | | | |l|ch]; try now rewrite app_nil_r.
  - apply fold_collect_flat_map.
  - apply collect_categories_app.
Qed.

(** X13.  The walk of a list is the walk of its elements, one after the
    other, so the walk of two lists joined is the two walks joined; a value
    that is neither a list nor a dict is a dead end. *)
Theorem walk_of_list (l1 l2 : list json) :
  collect (JArr l1) [] = flat_map (fun c => collect c []) l1 /\
  collect (JArr (l1 ++ l2)) [] = collect (JArr l1) [] ++ collect (JArr l2) [] /\
  (forall (cats : list CategoryEntry) b z f s,
      collect JNull cats = cats /\ collect (JBool b) cats = cats /\
      collect (JInt z) cats = cats /\ collect (JFloat f) cats = cats /\
      collect (JStr s) cats = cats).
Proof.
  assert (H : forall l, collect (JArr l) [] = flat_map (fun c => collect c []) l).
  { intros l. rewrite collect_categories_list. apply fold_collect_flat_map. }
  split; [apply H|]. split.
  - rewrite !H. apply flat_map_app.
  - intros. repeat split; reflexivity.
Qed.

Lemma fold_keys_flat_map (data : dict) (keys : list string)
    (cats : list CategoryEntry) :
  fold_left
    (fun cats key =>
       if dict_has key data then collect (dict_get key data) cats else cats)
    keys cats
  = cats ++ flat_map (fun key => if dict_has key data
                                 then collect (dict_get key data) [] else [])
              keys.
Proof.
  revert cats. induction keys as [|key keys IH]; intros cats; simpl.
  - now rewrite app_nil_r.
  - rewrite IH. destruct (dict_has key data).
    + rewrite (collect_categories_app _ _ _ cats). now rewrite app_assoc.
    + reflexivity.
Qed.

(** X14.  From the top level the walk starts at every one of the keys
    children, accounts, items, tree, data that the statement has, in this
    order, and not at the first of them only: the entries collected are
    those of each start, joined. *)
Theorem collect_all_every_key (data : dict) :
  all_cats data
  = flat_map (fun key => if dict_has key data
                         then collect (dict_get key data) [] else [])
      walk_keys.
Proof. unfold collect_all. apply (fold_keys_flat_map data walk_keys []). Qed.

(** X15.  The recursion ends: with any fuel above the nesting depth of the
    value the walk gives the same list. *)
Theorem walk_fuel_enough (n : nat) (node : json) (cats : list CategoryEntry) :
  (json_depth node < n)%nat ->
  collect_fuel n node cats = collect node cats.
Proof.
  intros H. apply collect_fuel_irrelevant; [exact H|]. lia.
Qed.

End WalkerMore.

(** ** More on the ranking *)

Lemma StronglySorted_app_cross {A} (R : A -> A -> Prop) (l1 l2 : list A) :
  StronglySorted R (l1 ++ l2) ->
  forall a b, In a l1 -> In b l2 -> R a b.
Proof.
  induction l1 as [|x l1 IH]; simpl; intros Hs a b Ha Hb; [destruct Ha|].
  inversion Hs as [|x' l' Hs' Hall]; subst.
  destruct Ha as [->|Ha].
  - rewrite Forall_forall in Hall. apply Hall, in_or_app. now right.
  - now apply IH.
Qed.

Lemma firstn_all_perm {A} (n : nat) (l l' : list A) :
  Permutation l l' -> (List.length l' <= n)%nat ->
  Permutation (firstn n l) l'.
Proof.
  intros Hp Hlen. rewrite firstn_all2; [exact Hp|].
  now rewrite (Permutation_length Hp).
Qed.

(** X16.  Every ranked entry is one of the collected entries, of positive
    value in [top_income] and of negative value in [top_expenses]; no entry
    is in both lists. *)
Theorem ranked_entries_sound (cats : list CategoryEntry) (c : CategoryEntry) :
  (In c (rank_income cats) ->
   In c cats /\ PrimFloat.ltb 0 (value c) = true) /\
  (In c (rank_expenses cats) ->
   In c cats /\ PrimFloat.ltb (value c) 0 = true) /\
  ~ (In c (rank_income cats) /\ In c (rank_expenses cats)).
Proof.
  assert (Hi : In c (rank_income cats) ->
               In c cats /\ PrimFloat.ltb 0 (value c) = true).
  { rewrite rank_income_eq. intros H. apply In_firstn in H.
    apply (Permutation_in _ (sorted_reverse_perm _ _)) in H.
    now apply filter_In in H. }
  assert (He : In c (rank_expenses cats) ->
               In c cats /\ PrimFloat.ltb (value c) 0 = true).
  { rewrite rank_expenses_eq. intros H. apply In_firstn in H.
    apply (Permutation_in _ (sorted_reverse_perm _ _)) in H.
    now apply filter_In in H. }
  split; [exact Hi|]. split; [exact He|].
  intros [H1 H2]. destruct (Hi H1) as [_ Hp]. destruct (He H2) as [_ Hn].
  apply float_ltb_leb in Hp.
  pose proof (float_ltb_leb _ _ Hn) as Hn'.
  rewrite ltb_spec in Hn. rewrite leb_spec in Hp.
  unfold SFltb in Hn. unfold SFleb in Hp.
  destruct (Prim2SF (value c)) as [s|s| |s m e]; try destruct s;
    simpl in Hn, Hp; discriminate.
Qed.

(** X17.  The entries ranked are the largest: an entry of positive value
    that the cut at five leaves out is at most as large as every entry of
    [top_income]; with at most five entries of positive value all of them
    are ranked; and the list has five entries or as many as there are.  The
    same holds of [top_expenses] by absolute value. *)
Theorem ranked_entries_are_top (cats : list CategoryEntry) :
  let positive := filter (fun c => PrimFloat.ltb 0 (value c)) cats in
  let negative := filter (fun c => PrimFloat.ltb (value c) 0) cats in
  let magnitude := fun c => PrimFloat.abs (value c) in
  (forall a b,
      In a (rank_income cats) ->
      In b (skipn 5 (sorted_reverse value positive)) ->
      PrimFloat.leb (value b) (value a) = true) /\
  (forall a b,
      In a (rank_expenses cats) ->
      In b (skipn 5 (sorted_reverse magnitude negative)) ->
      PrimFloat.leb (magnitude b) (magnitude a) = true) /\
  ((List.length positive <= 5)%nat -> Permutation (rank_income cats) positive) /\
  ((List.length negative <= 5)%nat ->
   Permutation (rank_expenses cats) negative) /\
  List.length (rank_income cats) = Nat.min 5 (List.length positive) /\
  List.length (rank_expenses cats) = Nat.min 5 (List.length negative).
Proof.
  intros positive negative magnitude.
  assert (Hsp : StronglySorted (descending value)
                  (sorted_reverse value positive)).
  { apply sorted_reverse_sorted, Forall_forall. intros c Hc.
    apply filter_In in Hc. apply positive_is_number, Hc. }
  assert (Hsn : StronglySorted (descending magnitude)
                  (sorted_reverse magnitude negative)).
  { apply sorted_reverse_sorted, Forall_forall. intros c Hc.
    apply filter_In in Hc. apply negative_abs_is_number, Hc. }
  rewrite rank_income_eq, rank_expenses_eq.
  fold positive. fold negative. fold magnitude.
  repeat split.
  - intros a b Ha Hb. rewrite <- (firstn_skipn 5) in Hsp.
    exact (StronglySorted_app_cross _ _ _ Hsp a b Ha Hb).
  - intros a b Ha Hb. rewrite <- (firstn_skipn 5) in Hsn.
    exact (StronglySorted_app_cross _ _ _ Hsn a b Ha Hb).
  - intros H. apply firstn_all_perm; [apply sorted_reverse_perm|exact H].
  - intros H. apply firstn_all_perm; [apply sorted_reverse_perm|exact H].
  - rewrite length_firstn.
    now rewrite (Permutation_length (sorted_reverse_perm value positive)).
  - rewrite length_firstn.
    now rewrite (Permutation_length (sorted_reverse_perm magnitude negative)).
Qed.

(** ** A value that does not coerce *)

Section Uncoercible.

Variable float_of_str : string -> option float.
Variable str_of_value : json -> string.

(** X18.  The first true value among balance, amount, value, total is the
    only one coerced: when it is no number the node is not recorded, whatever
    the later keys hold. *)
Theorem uncoercible_value_blocks_later_keys
    (node : dict) (kv : string) (cats : list CategoryEntry) :
  first_truthy_key node value_keys kv ->
  _num float_of_str (dict_get kv node) = None ->
  node_val float_of_str node = None /\
  record_entry float_of_str str_of_value node cats = cats.
Proof.
  intros Hk Hnone.
  assert (Hv : node_val float_of_str node = None).
  { rewrite node_val_chain.
    now rewrite (or_chain_first_truthy_key node value_keys kv Hk). }
  split; [exact Hv|]. unfold record_entry. rewrite Hv.
  now destruct (is_None (node_name node)).
Qed.

End Uncoercible.

(** ** The further properties at concrete inputs *)

(** X4 at a 200 answer whose body is no JSON, with the decoding raising a
    [RequestException] and raising something else, and at a call that
    raises something else. *)
Lemma fetch_decoding_failure_witness :
  _http_get_income_statement example_api
    (upstream_answer 200 (Raises (RequestException "Expecting value"))) []
  = Raises (HTTPException 502 "Failed to reach Fava: Expecting value") /\
  _http_get_income_statement example_api
    (upstream_answer 200 (Raises ValueError)) []
  = Raises ValueError /\
  _http_get_income_statement example_api
    (fun _ _ _ => Raises (OtherException "boom")) []
  = Raises (OtherException "boom").
Proof.
  split; [|split].
  - exact (proj1 (fetch_decoding_failure example_api
                    (upstream_answer 200
                       (Raises (RequestException "Expecting value"))) [])
             _ "Expecting value" eq_refl eq_refl eq_refl).
  - apply (proj1 (proj2 (fetch_decoding_failure example_api
                           (upstream_answer 200 (Raises ValueError)) []))
             _ ValueError eq_refl eq_refl eq_refl).
    discriminate.
  - apply (proj2 (proj2 (fetch_decoding_failure example_api
                           (fun _ _ _ => Raises (OtherException "boom")) []))
             _ eq_refl).
    discriminate.
Defined.

(** X5 at the statuses 500 and 404. *)
Lemma status_detail_names_status_witness :
  str_of_int 500 = "500" /\
  option_map Z.of_int (NilZero.int_of_string "404") = Some 404%Z.
Proof.
  split; [reflexivity|].
  exact (proj1 (status_detail_names_status 404 404)).
Defined.

(** X6 at an upstream answering 200 with [{"income": 1}]. *)
Lemma route_returns_iff_witness :
  explain_income_statement no_literal opaque_str example_limit example_api
    (upstream_answer 200 (Returns (JObj [("income", JInt 1)])))
    None None None None false
  = Returns
      [("source", VStr example_api);
       ("summary",
        VSummary (summarize_dict no_literal opaque_str [("income", JInt 1)]))].
Proof.
  apply (proj2 (route_returns_iff no_literal opaque_str example_limit
                  example_api
                  (upstream_answer 200 (Returns (JObj [("income", JInt 1)])))
                  None None None None false [])
           _ [("income", JInt 1)] eq_refl eq_refl eq_refl).
  unfold example_limit. simpl. lia.
Defined.

(** X7 at an upstream answering 200 with a list, and with an object nested
    deeper than the limit allows. *)
Lemma route_raises_cases_witness :
  explain_income_statement no_literal opaque_str example_limit example_api
    (upstream_answer 200 (Returns (JArr []))) None None None None true
  = Raises AttributeError /\
  _http_get_income_statement example_api
    (upstream_answer 200 (Returns (JArr []))) []
  = Returns (JArr []) /\
  explain_income_statement no_literal opaque_str 3 example_api
    (upstream_answer 200 (Returns (JObj [("children", deep_children 3)])))
    None None None None true
  = Raises RecursionError.
Proof.
  destruct (route_raises_cases no_literal opaque_str example_limit example_api
              (upstream_answer 200 (Returns (JArr [])))
              None None None None true AttributeError eq_refl)
    as [H|[(_ & data & H & _)|(H & _)]].
  - discriminate H.
  - repeat split; reflexivity.
  - discriminate H.
Defined.

(** X8 at [{"income": 1, "expenses": -1}]. *)
Lemma net_known_when_income_and_expenses_witness :
  net_profit (derive_totals no_literal
                [("income", JInt 1); ("expenses", JInt (-1))]) <> None.
Proof.
  apply net_known_when_income_and_expenses; discriminate.
Defined.

(** X9 at a zero income under totals beside a top-level income, and at
    totals without an income. *)
Lemma totals_take_precedence_witness :
  income (derive_totals no_literal
            [("totals", JObj [("income", JInt 0)]); ("income", JInt 9)])
  = Some 0%float /\
  income (derive_totals no_literal
            [("totals", JObj [("net", JInt 1)]); ("income", JInt 9)])
  = Some 9%float.
Proof.
  split.
  - exact (proj1 (totals_take_precedence no_literal
                    [("totals", JObj [("income", JInt 0)]); ("income", JInt 9)])
             [("income", JInt 0)] 0%float eq_refl eq_refl).
  - apply (proj1 (proj2 (proj2 (totals_take_precedence no_literal
             [("totals", JObj [("net", JInt 1)]); ("income", JInt 9)])))).
    intros t [= <-]. reflexivity.
Defined.

(** X10 at the statement of the basic test with a field of its own. *)
Lemma unread_top_level_key_ignored_witness :
  summarize_dict no_literal opaque_str
    [("income", JInt 5); ("generated_at", JStr "today"); ("expenses", JInt (-2))]
  = summarize_dict no_literal opaque_str
      [("income", JInt 5); ("expenses", JInt (-2))].
Proof.
  apply (unread_top_level_key_ignored no_literal opaque_str
           "generated_at" (JStr "today")
           [("income", JInt 5)] [("expenses", JInt (-2))]).
  simpl. intuition discriminate.
Defined.

(** X11 at a node with a currency field and entries under a key the walk
    does not read. *)
Lemma unread_node_key_ignored_witness :
  collect_categories no_literal opaque_str
    (JObj [("name", JStr "A");
           ("nested", JArr [JObj [("name", JStr "B"); ("balance", JInt 2)]]);
           ("balance", JInt 1)]) []
  = [ {| name := "A"; value := 1 |} ].
Proof.
  etransitivity.
  - apply (unread_node_key_ignored no_literal opaque_str "nested"
             (JArr [JObj [("name", JStr "B"); ("balance", JInt 2)]])
             [("name", JStr "A")] [("balance", JInt 1)] []).
    simpl. intuition discriminate.
  - reflexivity.
Defined.

(** X12 at a node with one child, after an entry collected before. *)
Lemma walk_appends_in_preorder_witness :
  let node :=
    JObj [("name", JStr "P"); ("balance", JInt 3);
          ("children", JArr [JObj [("name", JStr "C"); ("balance", JInt 1)]])] in
  collect_categories no_literal opaque_str node
    [ {| name := "before"; value := 9 |} ]
  = [ {| name := "before"; value := 9 |};
      {| name := "P"; value := 3 |}; {| name := "C"; value := 1 |} ].
Proof.
  intros node.
  destruct (walk_appends_in_preorder no_literal opaque_str node
              [ {| name := "before"; value := 9 |} ]) as [Happ Hpre].
  rewrite Happ, (Hpre _ eq_refl). reflexivity.
Defined.

(** X15 at a value of depth two and fuel ten. *)
Lemma walk_fuel_enough_witness :
  collect_categories_fuel no_literal opaque_str 10
    (JArr [JObj [("name", JStr "A"); ("balance", JInt 1)]]) []
  = [ {| name := "A"; value := 1 |} ].
Proof.
  rewrite (walk_fuel_enough no_literal opaque_str 10); [reflexivity|].
  simpl. lia.
Defined.

(** X16 and X17 at seven entries of positive value and two of negative. *)
Lemma ranked_entries_sound_witness :
  let e := fun (n : string) (v : float) => {| name := n; value := v |} in
  let cats := [e "a" 3; e "b" (-7); e "c" 1]%float in
  PrimFloat.ltb 0 (value (e "a" 3%float)) = true /\
  ~ In (e "a" 3%float) (rank_expenses cats).
Proof.
  intros e cats.
  destruct (ranked_entries_sound cats (e "a" 3%float)) as (Hi & _ & Hno).
  assert (Ha : In (e "a" 3%float) (rank_income cats)) by (left; reflexivity).
  split; [exact (proj2 (Hi Ha))|].
  intros He. apply Hno. split; assumption.
Defined.

Lemma ranked_entries_are_top_witness :
  let e := fun (n : string) (v : float) => {| name := n; value := v |} in
  let cats :=
    [e "a" 3; e "b" 7; e "c" 1; e "d" 7; e "e" 9; e "f" 2; e "g" 4;
     e "x" (-2); e "y" (-5)]%float in
  PrimFloat.leb (value (e "c" 1%float)) (value (e "a" 3%float)) = true /\
  Permutation (rank_expenses cats) [e "x" (-2); e "y" (-5)]%float /\
  List.length (rank_income cats) = 5%nat.
Proof.
  intros e cats.
  destruct (ranked_entries_are_top cats) as (Htop & _ & _ & Hall & Hlen & _).
  split; [|split].
  - apply (Htop (e "a" 3%float) (e "c" 1%float)).
    + do 4 right. left. reflexivity.
    + right. left. reflexivity.
  - apply Hall. simpl. lia.
  - exact Hlen.
Defined.

(** X18 at a node whose balance is a text and whose amount is a number. *)
Lemma uncoercible_value_blocks_later_keys_witness :
  collect_categories no_literal opaque_str
    (JObj [("name", JStr "A"); ("balance", JStr "n/a"); ("amount", JInt 5)]) []
  = [].
Proof.
  assert (Hk : first_truthy_key
                 [("name", JStr "A"); ("balance", JStr "n/a"); ("amount", JInt 5)]
                 value_keys "balance").
  { exists [], ["amount"; "value"; "total"].
    split; [reflexivity|]. split; [constructor|reflexivity]. }
  rewrite collect_categories_dict.
  rewrite (proj2 (uncoercible_value_blocks_later_keys no_literal opaque_str
                    _ "balance" [] Hk eq_refl)).
  reflexivity.
Defined.

(** ** Nesting beyond the recursion limit *)

(** X19.  Whatever the recursion limit, the summariser raises
    [RecursionError] on the object whose children are a chain of that many
    nested dicts: the walk nests one call for each of them, and nothing
    catches the exception. *)
Theorem summarize_deep_raises
    (float_of_str : string -> option float) (str_of_value : json -> string)
    (recursion_limit : nat) :
  _summarize_income_statement float_of_str str_of_value recursion_limit
    (JObj [("children", deep_children recursion_limit)])
  = Raises RecursionError.
Proof.
  unfold _summarize_income_statement, collect_all_within.
  destruct recursion_limit as [|n] eqn:El; [reflexivity|]. rewrite <- El.
  cbn [fold_left dict_has dict_get String.eqb Ascii.eqb Bool.eqb orb bind].
  rewrite within_deep_children_raises by lia.
  reflexivity.
Qed.
